(** * Shankh.ai RAG service: request orchestration of [server.py]

    A shallow embedding of the two request handlers of
    [packages/rag_service/server.py], [retrieve] and [transcribe_audio],
    together with the pydantic request schema they are dispatched through.

    - Python floats that the handlers only compare, copy or average are
      modelled by exact rationals ([Q]): the finite binary64 values embed in
      [Q] with their order.
    - Text is a [string] of characters with code points below 256.
    - The file system is a finite map from paths to contents.
    - The embedding model, the FAISS index, the two speech models, the
      language detector and the upload are external: each is an oracle whose
      answer is either a Python exception or a value.  So are the creation
      of the temporary file and the write to it, which can raise; the read
      of the upload, the one [await] of the handlers, can also be
      cancelled.
    - Every handler runs in a small state-and-exception monad whose state
      carries the file system and the trace of external calls. *)

From Stdlib Require Import ZArith QArith Ascii String Strings.Byte List Sorted Lia.
From stdpp Require Import base list strings pretty gmap.

Local Open Scope string_scope.
Local Open Scope list_scope.
Local Open Scope Z_scope.

(** ** Python values *)

Definition bytes : Type := list Byte.byte.

(** Subclasses of [Exception] other than [HTTPException]; the argument is
    [str(e)]. *)
Inductive pyerr : Type :=
| LangDetectException (msg : string)
| IndexError (msg : string)
| KeyError (msg : string)
| TypeError (msg : string)
| ValueError (msg : string)
| AttributeError (msg : string)
| FileNotFoundError (msg : string)
| OSError (msg : string)
| RuntimeError (msg : string).

Definition str (e : pyerr) : string :=
  match e with
  | LangDetectException m | IndexError m | KeyError m | TypeError m
  | ValueError m | AttributeError m | FileNotFoundError m | OSError m
  | RuntimeError m => m
  end.

(** Everything a handler can raise.  [CancelledError] is
    [asyncio.CancelledError], raised at an [await] when the request is
    cancelled; it derives from [BaseException], not from [Exception]. *)
Inductive exn : Type :=
| HTTPException (status_code : Z) (detail : string)
| Err (e : pyerr)
| CancelledError.

(** [str(e)] for any exception; Starlette prints an [HTTPException] as
    its status code, a colon and its detail; a [CancelledError] without
    arguments prints as the empty string. *)
Definition str_exn (e : exn) : string :=
  match e with
  | HTTPException status_code detail => pretty status_code +:+ ": " +:+ detail
  | Err e' => str e'
  | CancelledError => ""
  end.

(** Truth value of an optional object: [None] is false, a handle is true. *)
Definition truthy {A : Type} (o : option A) : bool :=
  match o with Some _ => true | None => false end.

(** [x < y] on floats. *)
Definition Qlt_bool (x y : Q) : bool :=
  (Qnum x * Zpos (Qden y) <? Qnum y * Zpos (Qden x))%Z.

(** [l[i]] on a Python list: negative indices count from the end, anything
    out of range raises [IndexError]. *)
Definition py_getitem {A : Type} (l : list A) (i : Z) : pyerr + A :=
  let n := Z.of_nat (length l) in
  let j := if i <? 0 then i + n else i in
  if (j <? 0) || (n <=? j) then inl (IndexError "list index out of range")
  else match l !! Z.to_nat j with
       | Some x => inr x
       | None => inl (IndexError "list index out of range")
       end.

(** [str.isspace] for a character with code point below 256. *)
Definition isspace (c : ascii) : bool :=
  let n := nat_of_ascii c in
  ((9 <=? n) && (n <=? 13) || (28 <=? n) && (n <=? 32)
   || (n =? 133) || (n =? 160))%nat.

Fixpoint lstrip (s : string) : string :=
  match s with
  | String c s' => if isspace c then lstrip s' else s
  | EmptyString => EmptyString
  end.

Fixpoint rstrip (s : string) : string :=
  match s with
  | String c s' =>
      match rstrip s' with
      | EmptyString => if isspace c then EmptyString else String c EmptyString
      | r => String c r
      end
  | EmptyString => EmptyString
  end.

(** [s.strip()] *)
Definition strip (s : string) : string := rstrip (lstrip s).

(** ** The machine a handler runs on *)

(** Calls that leave the handler, in the order they are made. *)
Inductive event : Type :=
| EvDetect (text : string)
| EvEncode (query : string)
| EvSearch (k : Z)
| EvMetadataIndex (chunk_idx : Z)
| EvTempCreate (path : string)
| EvUploadRead
| EvTempWrite (path : string) (content : bytes)
| EvPrimaryRun (path : string) (content : bytes)
| EvWhisperRun (path : string) (content : bytes)
| EvUnlink (path : string).

(** [temp_path] is the binding of the local variable of that name in the
    running frame of [transcribe_audio] ([None]: not bound yet); the handler
    inspects it through [locals()]. *)
Record machine : Type := Machine {
  fs : gmap string bytes;
  trace : list event;
  temp_path : option string
}.

Definition M (A : Type) : Type := machine -> machine * (exn + A).

Definition ret {A} (a : A) : M A := fun m => (m, inr a).
Definition raise {A} (e : exn) : M A := fun m => (m, inl e).
Definition bind {A B} (c : M A) (f : A -> M B) : M B :=
  fun m => match c m with
           | (m', inr a) => f a m'
           | (m', inl e) => (m', inl e)
           end.

(** [try: body  except Exception as e: handler]; what is no [Exception],
    a [CancelledError], passes through. *)
Definition try_except {A} (body : M A) (handler : exn -> M A) : M A :=
  fun m => match body m with
           | (m', inl CancelledError) => (m', inl CancelledError)
           | (m', inl e) => handler e m'
           | r => r
           end.

Declare Scope py_scope.
Delimit Scope py_scope with py.
Notation "x <- c ;; k" := (bind c (fun x => k))
  (at level 100, c at next level, right associativity) : py_scope.
Notation "c ;;; k" := (bind c (fun _ => k))
  (at level 100, right associativity) : py_scope.
Local Open Scope py_scope.

(** An oracle answer enters the handler as a value or as a raised error. *)
Definition lift {A} (r : pyerr + A) : M A :=
  match r with inl e => raise (Err e) | inr a => ret a end.

Definition emit (ev : event) : M unit :=
  fun m => (Machine (fs m) (trace m ++ [ev]) (temp_path m), inr tt).

(** [os.path.exists(p)] *)
Definition os_path_exists (p : string) : M bool :=
  fun m => (m, inr (bool_decide (is_Some (fs m !! p)))).

(** [os.unlink(p)] *)
Definition os_unlink (p : string) : M unit :=
  fun m => match fs m !! p with
           | Some _ =>
               (Machine (delete p (fs m)) (trace m ++ [EvUnlink p]) (temp_path m),
                inr tt)
           | None =>
               (m, inl (Err (FileNotFoundError
                               ("[Errno 2] No such file or directory: " +:+ p))))
           end.

(** Opening a file for reading, as the speech models do with the path they
    are given. *)
Definition read_file (p : string) : M bytes :=
  fun m => match fs m !! p with
           | Some c => (m, inr c)
           | None =>
               (m, inl (Err (FileNotFoundError
                               ("[Errno 2] No such file or directory: " +:+ p))))
           end.

(** The HTTP status the framework answers with; a cancelled request is
    not answered. *)
Definition status_of {A} (r : exn + A) : option Z :=
  match r with
  | inr _ => Some 200
  | inl (HTTPException s _) => Some s
  | inl (Err _) => Some 500
  | inl CancelledError => None
  end.

(** ** Data model *)

(** One dict of [state.metadata['chunks']]. *)
Module ChunkData.
Record t : Type := mk {
  chunk_id : Z;
  filename : string;
  page_num : Z;
  text : string;
  excerpt : string;
  char_start : Z;
  char_end : Z
}.
End ChunkData.

Module RetrievalRequest.
Record t : Type := mk {
  query : string;
  k : Z;
  lang_hint : option string;
  threshold : option Q
}.

(** The [Field] constraints: [min_length=1], [ge=1, le=50],
    [ge=0.0, le=1.0]. *)
Definition validate (r : t) : bool :=
  (1 <=? Z.of_nat (String.length (query r)))
  && (1 <=? k r) && (k r <=? 50)
  && match threshold r with
     | Some t => Qle_bool 0 t && Qle_bool t 1
     | None => true
     end.
End RetrievalRequest.

Module DocumentResult.
Record t : Type := mk {
  chunk_id : Z;
  filename : string;
  page_num : Z;
  text : string;
  excerpt : string;
  score : Q;
  char_start : Z;
  char_end : Z
}.
End DocumentResult.

Module RetrievalResponse.
Record t : Type := mk {
  query : string;
  results : list DocumentResult.t;
  num_results : Z;
  detected_language : option string;
  processing_time_ms : Q
}.
End RetrievalResponse.

Module TranscriptionResponse.
(** One dict of [segments]. *)
Record segment : Type := mk_segment {
  seg_start : Q;
  seg_end : Q;
  seg_text : string
}.

Record t : Type := mk {
  text : string;
  language : string;
  confidence : option Q;
  segments : list segment
}.
End TranscriptionResponse.

(** What [whisper_model.transcribe] returns: a dict, read with [get] and
    with subscripts; a key may be missing. *)
Module WhisperResult.
Record seg : Type := mk_seg {
  start : option Q;
  end_ : option Q;
  text : option string;
  no_speech_prob : option Q
}.

Record t : Type := mk {
  result_text : option string;
  result_language : option string;
  result_segments : option (list seg)
}.
End WhisperResult.

(** ** External capabilities *)

Definition vec : Type := list Q.

(** [SentenceTransformer.encode([query], convert_to_numpy=True)] *)
Definition Encoder : Type := string -> pyerr + vec.

(** [faiss.Index.search(x, k)]: the rows [distances[0]] and [indices[0]]. *)
Definition Index : Type := vec -> Z -> pyerr + (list Q * list Z).

Record Metadata : Type := mk_Metadata {
  chunks : list ChunkData.t;
  embedding_model : option string
}.

(** Lines 473-481: [librosa.load] and the processor call, on the bytes of
    the audio file. *)
Definition Processor : Type := bytes -> pyerr + list Q.

(** Lines 484-494: [generate] and [batch_decode]. *)
Definition IndicModel : Type := list Q -> pyerr + string.

(** [whisper_model.transcribe], on the bytes of the audio file. *)
Definition WhisperModel : Type := bytes -> pyerr + WhisperResult.t.

(** [ServerState]: the fields the handlers read. *)
Record ServerState : Type := mk_ServerState {
  index : option Index;
  metadata : option Metadata;
  model : option Encoder;
  whisper_model : option WhisperModel;
  indicseamless_processor : option Processor;
  indicseamless_model : option IndicModel;
  ready : bool
}.

(** How [await audio.read()] can end without the content: with an
    exception, or cancelled while it waits. *)
Inductive read_error : Type :=
| ReadFailed (e : pyerr)
| ReadCancelled.

(** [UploadFile] *)
Record UploadFile : Type := mk_UploadFile {
  upload_filename : option string;
  upload_read : read_error + bytes
}.

(** Module-level bindings of [server.py] and the library functions the
    handlers call. *)
Record Globals : Type := mk_Globals {
  WHISPER_AVAILABLE : bool;
  LANGDETECT_AVAILABLE : bool;
  (** [langdetect.detect] *)
  detect : string -> pyerr + string;
  (** [faiss.normalize_L2] *)
  normalize_L2 : vec -> vec;
  (** [os.path.splitext(p)[1]] *)
  splitext_ext : string -> string;
  (** the name [tempfile.NamedTemporaryFile] picks for a suffix *)
  temp_name : string -> string;
  (** the exception with which [tempfile.NamedTemporaryFile] refuses a
      suffix (a name too long, an embedded null byte, no space), if any *)
  temp_create_error : string -> option pyerr;
  (** the exception with which writing a content to a temporary file
      fails, and what of the content is in the file by then, if any *)
  temp_write_error : string -> bytes -> option (pyerr * bytes);
  (** [(datetime.now() - start_time).total_seconds() * 1000], rounded *)
  elapsed_ms : Q
}.

(** ** Startup *)

(** [ServerState.__init__] *)
Definition ServerState_init : ServerState :=
  mk_ServerState None None None None None None false.

(** What the loads of [startup_event] meet: the settings and import flag
    they test, and the outcome of each load. *)
Record Loads : Type := mk_Loads {
  INDICSEAMLESS_AVAILABLE : bool;
  use_indicseamless : bool;
  (** [SentenceTransformer(settings.embedding_model, token=False)] *)
  load_SentenceTransformer : pyerr + Encoder;
  (** the path checks of lines 194-203, then [faiss.read_index] *)
  load_faiss_index : pyerr + Index;
  (** the path check of lines 211-212, then [pickle.load] *)
  load_pickle : pyerr + Metadata;
  (** [AutoProcessor.from_pretrained] *)
  load_AutoProcessor : pyerr + Processor;
  (** [AutoModelForSpeechSeq2Seq.from_pretrained] *)
  load_AutoModel : pyerr + IndicModel;
  (** [whisper.load_model] *)
  load_whisper : pyerr + WhisperModel
}.

Section Startup.
Variable G : Globals.
Variable L : Loads.

Definition load_embedding_model (st : ServerState)
  : ServerState * (pyerr + unit) :=
  match load_SentenceTransformer L with
  | inr enc =>
      (mk_ServerState (index st) (metadata st) (Some enc) (whisper_model st)
         (indicseamless_processor st) (indicseamless_model st) (ready st),
       inr tt)
  | inl e => (st, inl e)
  end.

(** The index is assigned before the metadata file is looked for. *)
Definition load_index_and_metadata (st : ServerState)
  : ServerState * (pyerr + unit) :=
  match load_faiss_index L with
  | inl e => (st, inl e)
  | inr ix =>
      let st1 :=
        mk_ServerState (Some ix) (metadata st) (model st) (whisper_model st)
          (indicseamless_processor st) (indicseamless_model st) (ready st) in
      match load_pickle L with
      | inl e => (st1, inl e)
      | inr md =>
          (mk_ServerState (index st1) (Some md) (model st1)
             (whisper_model st1) (indicseamless_processor st1)
             (indicseamless_model st1) (ready st1),
           inr tt)
      end
  end.

(** Every failure is caught and logged; what was assigned before it stays.
    A failure of [to] or [eval], after both assignments, changes nothing. *)
Definition load_indicseamless_model (st : ServerState) : ServerState :=
  if negb (INDICSEAMLESS_AVAILABLE L) then st
  else if negb (use_indicseamless L) then st
  else
    match load_AutoProcessor L with
    | inl _ => st
    | inr proc =>
        let st1 :=
          mk_ServerState (index st) (metadata st) (model st)
            (whisper_model st) (Some proc) (indicseamless_model st)
            (ready st) in
        match load_AutoModel L with
        | inl _ => st1
        | inr mdl =>
            mk_ServerState (index st1) (metadata st1) (model st1)
              (whisper_model st1) (indicseamless_processor st1) (Some mdl)
              (ready st1)
        end
    end.

Definition load_whisper_model (st : ServerState) : ServerState :=
  if negb (WHISPER_AVAILABLE G) then st
  else
    match load_whisper L with
    | inr wm =>
        mk_ServerState (index st) (metadata st) (model st) (Some wm)
          (indicseamless_processor st) (indicseamless_model st) (ready st)
    | inl _ => st
    end.

(** [startup_event]: the state it leaves, and the exception it re-raises
    if a fatal load failed. *)
Definition startup_event (st : ServerState) : ServerState * option pyerr :=
  match load_embedding_model st with
  | (st1, inl e) => (st1, Some e)
  | (st1, inr _) =>
      match load_index_and_metadata st1 with
      | (st2, inl e) => (st2, Some e)
      | (st2, inr _) =>
          let st3 := load_indicseamless_model st2 in
          let st4 := load_whisper_model st3 in
          (mk_ServerState (index st4) (metadata st4) (model st4)
             (whisper_model st4) (indicseamless_processor st4)
             (indicseamless_model st4) true,
           None)
      end
  end.
End Startup.

(** ** [retrieve] *)

Section Retrieve.
Variable G : Globals.
Variable state : ServerState.

(** [state.metadata['chunks']] *)
Definition metadata_chunks : pyerr + list ChunkData.t :=
  match metadata state with
  | Some md => inr (chunks md)
  | None => inl (TypeError "'NoneType' object is not subscriptable")
  end.

Definition make_result (chunk_data : ChunkData.t) (score : Q)
  : DocumentResult.t :=
  DocumentResult.mk
    (ChunkData.chunk_id chunk_data) (ChunkData.filename chunk_data)
    (ChunkData.page_num chunk_data) (ChunkData.text chunk_data)
    (ChunkData.excerpt chunk_data) score
    (ChunkData.char_start chunk_data) (ChunkData.char_end chunk_data).

(** [request.threshold is not None and score < request.threshold] *)
Definition below_threshold (threshold : option Q) (score : Q) : bool :=
  match threshold with
  | Some t => Qlt_bool score t
  | None => false
  end.

(** The [for] loop of lines 384-405 over the zipped rows, [results] being
    the list built so far. *)
Fixpoint build_results (threshold : option Q) (pairs : list (Q * Z))
    (results : list DocumentResult.t) : M (list DocumentResult.t) :=
  match pairs with
  | [] => ret results
  | (distance, chunk_idx) :: rest =>
      if chunk_idx =? -1 then build_results threshold rest results
      else
        cs <- lift metadata_chunks ;;
        emit (EvMetadataIndex chunk_idx) ;;;
        chunk_data <- lift (py_getitem cs chunk_idx) ;;
        let score := distance in
        if below_threshold threshold score
        then build_results threshold rest results
        else build_results threshold rest
               (results ++ [make_result chunk_data score])
  end.

(** Lines 365-371. *)
Definition detect_query_language (query : string) : M (option string) :=
  if LANGDETECT_AVAILABLE G then
    emit (EvDetect query) ;;;
    match detect G query with
    | inr lang => ret (Some lang)
    | inl (LangDetectException _) => ret None
    | inl e => raise (Err e)
    end
  else ret None.

(** [state.model.encode(...)] *)
Definition encode (query : string) : M vec :=
  match model state with
  | Some enc => emit (EvEncode query) ;;; lift (enc query)
  | None =>
      raise (Err (AttributeError
                    "'NoneType' object has no attribute 'encode'"))
  end.

(** [state.index.search(query_embedding, request.k)] *)
Definition search (x : vec) (k : Z) : M (list Q * list Z) :=
  match index state with
  | Some ix => emit (EvSearch k) ;;; lift (ix x k)
  | None =>
      raise (Err (AttributeError
                    "'NoneType' object has no attribute 'search'"))
  end.

Definition retrieve (request : RetrievalRequest.t)
  : M RetrievalResponse.t :=
  if negb (ready state)
  then raise (HTTPException 503 "Service not ready")
  else
    detected_lang <- detect_query_language (RetrievalRequest.query request) ;;
    query_embedding <- encode (RetrievalRequest.query request) ;;
    let query_embedding := normalize_L2 G query_embedding in
    di <- search query_embedding (RetrievalRequest.k request) ;;
    results <- build_results (RetrievalRequest.threshold request)
                 (zip (fst di) (snd di)) [] ;;
    ret (RetrievalResponse.mk
           (RetrievalRequest.query request)
           results
           (Z.of_nat (length results))
           detected_lang
           (elapsed_ms G)).

(** [POST /retrieve]: the body is validated against the schema before the
    handler runs; a rejected body is answered with status 422. *)
Definition post_retrieve (body : RetrievalRequest.t)
  : M RetrievalResponse.t :=
  if RetrievalRequest.validate body then retrieve body
  else raise (HTTPException 422 "Unprocessable Entity").
End Retrieve.

(** ** [transcribe_audio] *)

Section Transcribe.
Variable G : Globals.
Variable state : ServerState.

(** A call starts with no local bound. *)
Definition new_frame : M unit :=
  fun m => (Machine (fs m) (trace m) None, inr tt).

(** [temp_path = ...] *)
Definition assign_temp_path (p : string) : M unit :=
  fun m => (Machine (fs m) (trace m) (Some p), inr tt).

(** [locals().get('temp_path')] *)
Definition locals_temp_path : M (option string) :=
  fun m => (m, inr (temp_path m)).

(** [tempfile.NamedTemporaryFile(delete=False, suffix=suffix)]: it raises
    and creates nothing, or the file exists, empty, from here on. *)
Definition NamedTemporaryFile (suffix : string) : M string :=
  fun m =>
    match temp_create_error G suffix with
    | Some e => (m, inl (Err e))
    | None =>
        let p := temp_name G suffix in
        (Machine (<[p := []]> (fs m)) (trace m ++ [EvTempCreate p])
           (temp_path m),
         inr p)
    end.

(** [temp_file.write(content)]: it raises, leaving in the file what was
    written by then, or the file holds the content. *)
Definition temp_file_write (p : string) (content : bytes) : M unit :=
  fun m =>
    match temp_write_error G p content with
    | Some (e, written) =>
        (Machine (<[p := written]> (fs m)) (trace m) (temp_path m),
         inl (Err e))
    | None =>
        (Machine (<[p := content]> (fs m))
           (trace m ++ [EvTempWrite p content]) (temp_path m),
         inr tt)
    end.

(** [await audio.read()] *)
Definition audio_read (audio : UploadFile) : M bytes :=
  emit EvUploadRead ;;;
  match upload_read audio with
  | inr content => ret content
  | inl (ReadFailed e) => raise (Err e)
  | inl ReadCancelled => raise CancelledError
  end.

(** Lines 452-454. *)
Definition upload_suffix (audio : UploadFile) : string :=
  match upload_filename audio with
  | Some fn =>
      if String.eqb fn "" then ".wav"
      else let ext := splitext_ext G fn in
           if String.eqb ext "" then ".wav" else ext
  | None => ".wav"
  end.

(** Lines 499-504: the bare [except] swallows every failure. *)
Definition detect_transcript_language (transcription : string) : M string :=
  if LANGDETECT_AVAILABLE G then
    emit (EvDetect transcription) ;;;
    match detect G transcription with
    | inr lang => ret lang
    | inl _ => ret "hi"
    end
  else ret "hi".

(** Lines 468-517, the body of the inner [try]; it ends in [return]. *)
Definition indicseamless_body (proc : Processor) (mdl : IndicModel)
    (p : string) : M TranscriptionResponse.t :=
  audio_bytes <- read_file p ;;
  emit (EvPrimaryRun p audio_bytes) ;;;
  inputs <- lift (proc audio_bytes) ;;
  transcription <- lift (mdl inputs) ;;
  detected_lang <- detect_transcript_language transcription ;;
  os_unlink p ;;;
  ret (TranscriptionResponse.mk (strip transcription) detected_lang
         (Some (85 # 100)%Q) []).

(** Lines 467-522: [Some] when the block returned, [None] when control
    falls through to the Whisper block. *)
Definition try_indicseamless (p : string)
  : M (option TranscriptionResponse.t) :=
  match indicseamless_model state, indicseamless_processor state with
  | Some mdl, Some proc =>
      try_except
        (resp <- indicseamless_body proc mdl p ;; ret (Some resp))
        (fun indic_error => ret None)
  | _, _ => ret None
  end.

(** [d[key]] on a key that may be missing. *)
Definition subscript {A} (key : string) (v : option A) : pyerr + A :=
  match v with
  | Some a => inr a
  | None => inl (KeyError ("'" +:+ key +:+ "'"))
  end.

(** [seg.get('no_speech_prob', 0)] *)
Definition seg_no_speech_prob (s : WhisperResult.seg) : Q :=
  match WhisperResult.no_speech_prob s with
  | Some q => q
  | None => 0%Q
  end.

(** [sum(xs)] *)
Definition py_sum (xs : list Q) : Q := fold_left Qplus xs 0%Q.

(** Lines 538-544. *)
Definition avg_confidence (segments : list WhisperResult.seg) : Q :=
  match segments with
  | [] => (8 # 10)%Q
  | _ =>
      let confidences := map seg_no_speech_prob segments in
      (1 - py_sum confidences / inject_Z (Z.of_nat (length confidences)))%Q
  end.

(** One dict of the [segments] comprehension, lines 554-558. *)
Definition segment_dict (s : WhisperResult.seg)
  : pyerr + TranscriptionResponse.segment :=
  match subscript "start" (WhisperResult.start s) with
  | inl e => inl e
  | inr st =>
      match subscript "end" (WhisperResult.end_ s) with
      | inl e => inl e
      | inr en =>
          match subscript "text" (WhisperResult.text s) with
          | inl e => inl e
          | inr tx => inr (TranscriptionResponse.mk_segment st en (strip tx))
          end
      end
  end.

Fixpoint segment_dicts (segs : list WhisperResult.seg)
  : pyerr + list TranscriptionResponse.segment :=
  match segs with
  | [] => inr []
  | s :: rest =>
      match segment_dict s with
      | inl e => inl e
      | inr d =>
          match segment_dicts rest with
          | inl e => inl e
          | inr ds => inr (d :: ds)
          end
      end
  end.

(** [result.get('segments', [])] *)
Definition result_get_segments (result : WhisperResult.t)
  : list WhisperResult.seg :=
  match WhisperResult.result_segments result with
  | Some segs => segs
  | None => []
  end.

(** Lines 537-561: what is computed from the dict Whisper returned. *)
Definition whisper_response (result : WhisperResult.t)
  : pyerr + TranscriptionResponse.t :=
  let segments := result_get_segments result in
  let avg := avg_confidence segments in
  match subscript "text" (WhisperResult.result_text result) with
  | inl e => inl e
  | inr text =>
      let language :=
        match WhisperResult.result_language result with
        | Some l => l
        | None => "unknown"
        end in
      match segment_dicts segments with
      | inl e => inl e
      | inr segs =>
          inr (TranscriptionResponse.mk (strip text) language (Some avg) segs)
      end
  end.

(** Lines 527-561, the body of the Whisper [try]. *)
Definition whisper_body (wm : WhisperModel) (p : string)
  : M TranscriptionResponse.t :=
  audio_bytes <- read_file p ;;
  emit (EvWhisperRun p audio_bytes) ;;;
  result <- lift (wm audio_bytes) ;;
  os_unlink p ;;;
  lift (whisper_response result).

(** [if os.path.exists(temp_path): os.unlink(temp_path)] *)
Definition unlink_if_exists (p : string) : M unit :=
  ex <- os_path_exists p ;;
  if ex then os_unlink p else ret tt.

(** Lines 563-570. *)
Definition whisper_handler (p : string) (whisper_error : exn)
  : M TranscriptionResponse.t :=
  unlink_if_exists p ;;;
  raise (HTTPException 500
           ("Whisper transcription failed: " +:+ str_exn whisper_error)).

(** Lines 524-578. *)
Definition whisper_or_unavailable (p : string) : M TranscriptionResponse.t :=
  match whisper_model state with
  | Some wm => try_except (whisper_body wm p) (whisper_handler p)
  | None =>
      unlink_if_exists p ;;;
      raise (HTTPException 501 "No STT model available")
  end.

(** Lines 451-578, the body of the outer [try]. *)
Definition transcribe_body (audio : UploadFile) : M TranscriptionResponse.t :=
  let suffix := upload_suffix audio in
  p <- NamedTemporaryFile suffix ;;
  content <- audio_read audio ;;
  temp_file_write p content ;;;
  assign_temp_path p ;;;
  r <- try_indicseamless p ;;
  match r with
  | Some resp => ret resp
  | None => whisper_or_unavailable p
  end.

(** Lines 580-586. *)
Definition transcribe_handler (e : exn) : M TranscriptionResponse.t :=
  match e with
  | HTTPException _ _ => raise e
  | Err e' =>
      tp <- locals_temp_path ;;
      match tp with
      | Some p => unlink_if_exists p
      | None => ret tt
      end ;;;
      raise (HTTPException 500 ("Transcription failed: " +:+ str e'))
  | CancelledError => raise e
  end.

Definition transcribe_audio (audio : UploadFile)
  : M TranscriptionResponse.t :=
  new_frame ;;;
  if negb (WHISPER_AVAILABLE G) && negb (truthy (indicseamless_model state))
  then raise (HTTPException 501
                "No STT model available. Install Whisper or IndicSeamless.")
  else try_except (transcribe_body audio) transcribe_handler.
End Transcribe.

(** ** The status endpoints *)

Module StatusResponse.
Record t : Type := mk {
  status : string;
  service : string;
  version : string;
  embedding_model : string;
  index_loaded : bool;
  num_chunks : Z;
  whisper_available : bool;
  langdetect_available : bool;
  uptime_seconds : Q
}.
End StatusResponse.

(** What [GET /] returns. *)
Module RootResponse.
Record t : Type := mk {
  service : string;
  status : string;
  docs : string
}.
End RootResponse.

(** What [GET /health] returns. *)
Module HealthResponse.
Record t : Type := mk {
  status : string;
  ready : bool
}.
End HealthResponse.

Section Status.
Variable G : Globals.
Variable state : ServerState.

Definition root : RootResponse.t :=
  RootResponse.mk "Shankh.ai RAG Service"
    (if ready state then "running" else "initializing") "/docs".

(** [settings_embedding_model] is [settings.embedding_model]; [uptime] is
    [(datetime.now() - state.start_time).total_seconds()]. *)
Definition get_status (settings_embedding_model : string) (uptime : Q)
  : StatusResponse.t :=
  StatusResponse.mk
    (if ready state then "ready" else "initializing")
    "RAG Retrieval Service"
    "1.0.0"
    settings_embedding_model
    (truthy (index state))
    (match metadata state with
     | Some md => Z.of_nat (length (chunks md))
     | None => 0
     end)
    (WHISPER_AVAILABLE G && truthy (whisper_model state))
    (LANGDETECT_AVAILABLE G)
    uptime.

Definition health : HealthResponse.t :=
  HealthResponse.mk "healthy" (ready state).
End Status.

(** ** Notions the properties are stated with *)

Local Open Scope Q_scope.

(** Whitespace at either end of a text. *)
Definition starts_with_space (s : string) : bool :=
  match s with
  | String c _ => isspace c
  | EmptyString => false
  end.

Fixpoint ends_with_space (s : string) : bool :=
  match s with
  | EmptyString => false
  | String c EmptyString => isspace c
  | String _ s' => ends_with_space s'
  end.

(** Descending order, as the index search returns its neighbours. *)
Definition descending (l : list Q) : Prop :=
  Sorted (fun a b => b <= a) l.

(** An index row entry survives the loop when it is no sentinel and is not
    below the threshold. *)
Definition survives (threshold : option Q) (e : Q * Z) : bool :=
  negb (snd e =? -1)%Z && negb (below_threshold threshold (fst e)).

Definition no_sentinel (e : Q * Z) : bool := negb (snd e =? -1)%Z.

(** [r] is the result built from the index row entry [e]. *)
Definition came_from (state : ServerState) (e : Q * Z)
    (r : DocumentResult.t) : Prop :=
  snd e <> (-1)%Z /\
  exists cs c,
    metadata_chunks state = inr cs /\
    py_getitem cs (snd e) = inr c /\
    r = make_result c (fst e).

(** [score >= t], the test a result must pass not to be discarded. *)
Definition meets (t : Q) (r : DocumentResult.t) : bool :=
  negb (Qlt_bool (DocumentResult.score r) t).

(** The rows the index search hands to the result loop for a request, when
    embedding and search both answer. *)
Definition search_rows (G : Globals) (state : ServerState)
    (request : RetrievalRequest.t) : option (list Q * list Z) :=
  match model state, index state with
  | Some enc, Some ix =>
      match enc (RetrievalRequest.query request) with
      | inr v =>
          match ix (normalize_L2 G v) (RetrievalRequest.k request) with
          | inr di => Some di
          | inl _ => None
          end
      | inl _ => None
      end
  | _, _ => None
  end.

(** Lines 365-380 of [retrieve]: everything before the result loop. *)
Definition retrieve_front (G : Globals) (state : ServerState)
    (query : string) (k : Z) : M (option string * (list Q * list Z)) :=
  detected_lang <- detect_query_language G query ;;
  query_embedding <- encode state query ;;
  di <- search state (normalize_L2 G query_embedding) k ;;
  ret (detected_lang, di).

(** Language detection does not abort the request: the detector is absent,
    answers, or raises its own [LangDetectException]. *)
Definition detection_harmless (G : Globals) (query : string) : Prop :=
  LANGDETECT_AVAILABLE G = false \/
  (exists lang, detect G query = inr lang) \/
  (exists msg, detect G query = inl (LangDetectException msg)).

(** Whatever machine it starts on, the computation [c] extends the trace
    by events that satisfy [P] only. *)
Definition emits_only {A : Type} (P : event -> Prop) (c : M A) : Prop :=
  forall m, exists tr,
    trace (fst (c m)) = trace m ++ tr /\ Forall P tr.

(** [t] is the lowest score of a non-empty result list. *)
Definition lowest_score (t : Q) (rs : list DocumentResult.t) : Prop :=
  Exists (fun r => DocumentResult.score r = t) rs /\
  Forall (fun r => t <= DocumentResult.score r) rs.

(** The temporary file a call of [transcribe_audio] writes the upload to. *)
Definition upload_path (G : Globals) (audio : UploadFile) : string :=
  temp_name G (upload_suffix G audio).

(** What the primary model makes of the audio: an error of the processor or
    of the model, or the decoded transcription. *)
Definition primary_outcome (proc : Processor) (mdl : IndicModel) (c : bytes)
    : pyerr + string :=
  match proc c with
  | inl e => inl e
  | inr inputs => mdl inputs
  end.

(** The primary slot as the handler tests it: both the model and its
    processor are loaded. *)
Definition primary_slot (state : ServerState)
    : option (Processor * IndicModel) :=
  match indicseamless_model state, indicseamless_processor state with
  | Some mdl, Some proc => Some (proc, mdl)
  | _, _ => None
  end.

(** The primary model is not loaded, or it raises on the audio [c]. *)
Definition primary_gives_nothing (state : ServerState) (c : bytes) : Prop :=
  match primary_slot state with
  | Some (proc, mdl) => exists e, primary_outcome proc mdl c = inl e
  | None => True
  end.

(** The language reported with a primary transcription. *)
Definition transcript_language (G : Globals) (transcription : string)
    : string :=
  if LANGDETECT_AVAILABLE G then
    match detect G transcription with
    | inr lang => lang
    | inl _ => "hi"
    end
  else "hi".

Definition detect_events (G : Globals) (transcription : string)
    : list event :=
  if LANGDETECT_AVAILABLE G then [EvDetect transcription] else [].

(** The response to a primary transcription. *)
Definition primary_response (G : Globals) (transcription : string)
    : TranscriptionResponse.t :=
  TranscriptionResponse.mk (strip transcription)
    (transcript_language G transcription) (Some (85 # 100)) [].

(** The answer of the Whisper block, from what Whisper did alone. *)
Definition fallback_answer (r : pyerr + WhisperResult.t)
    : exn + TranscriptionResponse.t :=
  match r with
  | inl e =>
      inl (HTTPException 500 ("Whisper transcription failed: " +:+ str e))
  | inr result =>
      match whisper_response result with
      | inl e =>
          inl (HTTPException 500 ("Whisper transcription failed: " +:+ str e))
      | inr resp => inr resp
      end
  end.

(** The test of lines 441-445: Whisper cannot be imported and no
    IndicSeamless model object is held. *)
Definition no_stt_installed (G : Globals) (state : ServerState) : bool :=
  negb (WHISPER_AVAILABLE G) && negb (truthy (indicseamless_model state)).

(** The events of persisting the upload [c] at [p]. *)
Definition persisted (p : string) (c : bytes) : list event :=
  [EvTempCreate p; EvUploadRead; EvTempWrite p c].

(** Creating or removing a file. *)
Definition temp_file_event (ev : event) : Prop :=
  match ev with
  | EvTempCreate _ | EvUnlink _ => True
  | _ => False
  end.

(** The temporary file of a call can be created. *)
Definition temp_created (G : Globals) (audio : UploadFile) : Prop :=
  temp_create_error G (upload_suffix G audio) = None.

(** The content [c] can be written to the temporary file of a call. *)
Definition temp_written (G : Globals) (audio : UploadFile) (c : bytes)
    : Prop :=
  temp_write_error G (upload_path G audio) c = None.


(** The state with its readiness flag set to [b]. *)
Definition with_ready (b : bool) (state : ServerState) : ServerState :=
  mk_ServerState (index state) (metadata state) (model state)
    (whisper_model state) (indicseamless_processor state)
    (indicseamless_model state) b.

(** The dict [d] of the response is the native segment [s]: its start, its
    end, and its text stripped. *)
Definition segment_of (s : WhisperResult.seg)
    (d : TranscriptionResponse.segment) : Prop :=
  WhisperResult.start s = Some (TranscriptionResponse.seg_start d) /\
  WhisperResult.end_ s = Some (TranscriptionResponse.seg_end d) /\
  exists tx,
    WhisperResult.text s = Some tx /\
    TranscriptionResponse.seg_text d = strip tx.

(** [mean(xs)] of a non-empty list. *)
Definition mean (xs : list Q) : Q :=
  fold_right Qplus 0 xs / inject_Z (Z.of_nat (length xs)).

(** ** A concrete deployment, for examples *)

Definition ex_machine : machine := Machine ∅ [] None.

Definition ex_globals (whisper_importable : bool) : Globals :=
  mk_Globals whisper_importable true
    (fun text => if String.eqb text "" then
                   inl (LangDetectException "No features in text.")
                 else inr "en")
    (fun v => v)
    (fun fn => ".wav")
    (fun suffix => "/tmp/tmpk3x9" +:+ suffix)
    (fun suffix =>
       if (244 <? Z.of_nat (String.length suffix))%Z
       then Some (OSError "[Errno 36] File name too long")
       else None)
    (fun p content => None)
    (12 # 1).

Definition ex_chunk (i : Z) : ChunkData.t :=
  ChunkData.mk i "loans.pdf" (i + 1) "Eligibility criteria" "Eligibility"
    (100 * i) (100 * i + 20).

Definition ex_metadata : Metadata :=
  mk_Metadata [ex_chunk 0; ex_chunk 1; ex_chunk 2] None.

(** An index holding three vectors: a search for five neighbours pads the
    rows with two sentinels.  [d3] is the similarity of the farthest
    vector. *)
Definition ex_index (d3 : Q) : Index :=
  fun _ k =>
    inr ([9 # 10; 1 # 2; d3; -3 # 1; -3 # 1], [2; 0; 1; -1; -1]%Z).

Definition ex_encoder : Encoder := fun _ => inr [1 # 1; 0 # 1].

Definition ex_state (d3 : Q) (w : option WhisperModel) (p : option Processor)
    (i : option IndicModel) (is_ready : bool) : ServerState :=
  mk_ServerState (Some (ex_index d3)) (Some ex_metadata) (Some ex_encoder)
    w p i is_ready.

Definition ex_request (threshold : option Q) : RetrievalRequest.t :=
  RetrievalRequest.mk "loan eligibility criteria" 5 None threshold.

(** What the example deployment answers: the three stored chunks. *)
Definition ex_results (d3 : Q) : list DocumentResult.t :=
  [make_result (ex_chunk 2) (9 # 10); make_result (ex_chunk 0) (1 # 2);
   make_result (ex_chunk 1) d3].

Definition ex_response (d3 : Q) : RetrievalResponse.t :=
  RetrievalResponse.mk "loan eligibility criteria" (ex_results d3) 3
    (Some "en") (12 # 1).

(** With threshold one half, the two chunks that score at least that. *)
Definition ex_response_half : RetrievalResponse.t :=
  RetrievalResponse.mk "loan eligibility criteria"
    (take 2 (ex_results (-1 # 10))) 2 (Some "en") (12 # 1).

(** The machine after an answered example retrieval. *)
Definition ex_machine_retrieved : machine :=
  Machine ∅
    [EvDetect "loan eligibility criteria"; EvEncode "loan eligibility criteria";
     EvSearch 5; EvMetadataIndex 2; EvMetadataIndex 0; EvMetadataIndex 1]
    None.

(** Speech models and uploads of the example deployment. *)
Definition ex_processor : Processor := fun _ => inr [1 # 2].

Definition ex_indic : IndicModel := fun _ => inr "  namaste duniya ".

Definition ex_indic_failing : IndicModel :=
  fun _ => inl (RuntimeError "CUDA out of memory").

Definition ex_whisper_result : WhisperResult.t :=
  WhisperResult.mk (Some " hello world ") (Some "en")
    (Some [WhisperResult.mk_seg (Some 0) (Some (3 # 2)) (Some " hello")
             (Some (1 # 10));
           WhisperResult.mk_seg (Some (3 # 2)) (Some (5 # 2)) (Some " world ")
             (Some (3 # 10))]).

Definition ex_whisper : WhisperModel := fun _ => inr ex_whisper_result.

Definition ex_whisper_failing : WhisperModel :=
  fun _ => inl (RuntimeError "ffmpeg was not found").

Definition ex_audio : bytes := [Byte.x52; Byte.x49; Byte.x46; Byte.x46].

Definition ex_upload : UploadFile :=
  mk_UploadFile (Some "question.wav") (inr ex_audio).

Definition ex_upload_unreadable : UploadFile :=
  mk_UploadFile (Some "question.wav")
    (inl (ReadFailed (RuntimeError "client disconnected"))).

Definition ex_temp : string := "/tmp/tmpk3x9.wav".

(** What the example deployment answers when the primary model raises and
    Whisper transcribes. *)
Definition ex_transcription : TranscriptionResponse.t :=
  TranscriptionResponse.mk "hello world" "en" (Some (160 # 200))
    [TranscriptionResponse.mk_segment 0 (3 # 2) "hello";
     TranscriptionResponse.mk_segment (3 # 2) (5 # 2) "world"].

Definition ex_machine_transcribed : machine :=
  Machine ∅
    [EvTempCreate ex_temp; EvUploadRead; EvTempWrite ex_temp ex_audio;
     EvPrimaryRun ex_temp ex_audio; EvWhisperRun ex_temp ex_audio;
     EvUnlink ex_temp]
    (Some ex_temp).

(** A startup of the example deployment: every load succeeds but Whisper's,
    which is importable and fails to load; IndicSeamless is switched off. *)
Definition ex_loads : Loads :=
  mk_Loads true false (inr ex_encoder) (inr (ex_index (-1 # 10)))
    (inr ex_metadata) (inr ex_processor) (inr ex_indic)
    (inl (RuntimeError "checkpoint download failed")).


Definition ex_machine_unavailable : machine :=
  Machine ∅
    [EvTempCreate ex_temp; EvUploadRead; EvTempWrite ex_temp ex_audio;
     EvUnlink ex_temp]
    (Some ex_temp).

(** ** Further notions *)

(** The module without the language detector. *)
Definition without_langdetect (G : Globals) : Globals :=
  mk_Globals (WHISPER_AVAILABLE G) false (detect G) (normalize_L2 G)
    (splitext_ext G) (temp_name G) (temp_create_error G)
    (temp_write_error G) (elapsed_ms G).

(** The events [retrieve] may cause. *)
Definition retrieval_event (ev : event) : Prop :=
  match ev with
  | EvDetect _ | EvEncode _ | EvSearch _ | EvMetadataIndex _ => True
  | _ => False
  end.

(** The events of [retrieve] up to and including the embedding. *)
Definition before_search (ev : event) : Prop :=
  match ev with
  | EvDetect _ | EvEncode _ => True
  | _ => False
  end.

(** A position of a Python list of length [n], counted from either end. *)
Definition valid_index (n : nat) (i : Z) : Prop :=
  (- Z.of_nat n <= i < Z.of_nat n)%Z.

Definition is_primary_run (ev : event) : bool :=
  match ev with EvPrimaryRun _ _ => true | _ => false end.

Definition is_whisper_run (ev : event) : bool :=
  match ev with EvWhisperRun _ _ => true | _ => false end.

(** How many events of a trace pass a test. *)
Definition count_events (f : event -> bool) (tr : list event) : nat :=
  length (List.filter f tr).

(** No whitespace at either end. *)
Definition trimmed (s : string) : Prop :=
  starts_with_space s = false /\ ends_with_space s = false.

(** A probability. *)
Definition in_unit (q : Q) : Prop := 0 <= q <= 1.

(** The fatal loads of a startup all answer. *)
Definition fatal_loads_ok (L : Loads) : Prop :=
  (exists enc, load_SentenceTransformer L = inr enc) /\
  (exists ix, load_faiss_index L = inr ix) /\
  (exists md, load_pickle L = inr md).

Definition is_temp_create (ev : event) : bool :=
  match ev with EvTempCreate _ => true | _ => false end.

Definition is_unlink (ev : event) : bool :=
  match ev with EvUnlink _ => true | _ => false end.

(** ** Further examples *)

(** An index whose second neighbour lies past the three stored chunks. *)
Definition ex_index_stale : Index :=
  fun _ k => inr ([9 # 10; 1 # 2; 1 # 4], [2; 7; 1]%Z).

Definition ex_state_stale : ServerState :=
  mk_ServerState (Some ex_index_stale) (Some ex_metadata) (Some ex_encoder)
    None None None true.

Definition ex_encoder_failing : Encoder :=
  fun _ => inl (RuntimeError "CUDA out of memory").

Definition ex_state_unembeddable : ServerState :=
  mk_ServerState (Some (ex_index (-1 # 10))) (Some ex_metadata)
    (Some ex_encoder_failing) None None None true.

(** A detector that breaks with an exception of its own making. *)
Definition ex_globals_detector_broken : Globals :=
  mk_Globals true true (fun _ => inl (TypeError "expected str"))
    (fun v => v) (fun fn => ".wav")
    (fun suffix => "/tmp/tmpk3x9" +:+ suffix)
    (fun suffix => None) (fun p content => None) (12 # 1).

(** An upload whose name carries an extension of 301 characters, and the
    module as it answers for it: the extension is the suffix of the
    temporary name, which the file system refuses. *)
Definition ex_long_suffix : string :=
  "." +:+ String.concat "" (replicate 300 "x").

Definition ex_upload_long_name : UploadFile :=
  mk_UploadFile (Some ("a" +:+ ex_long_suffix)) (inr ex_audio).

Definition ex_globals_long_name : Globals :=
  mk_Globals true true (detect (ex_globals true)) (fun v => v)
    (fun fn => ex_long_suffix)
    (temp_name (ex_globals true)) (temp_create_error (ex_globals true))
    (fun p content => None) (12 # 1).

(** The client goes away while the upload is read. *)
Definition ex_upload_cancelled : UploadFile :=
  mk_UploadFile (Some "question.wav") (inl ReadCancelled).

(** Whisper answers without segments and without a language. *)
Definition ex_whisper_bare : WhisperModel :=
  fun _ => inr (WhisperResult.mk (Some " ok ") None None).

(** The machine after Whisper alone transcribed the example upload. *)
Definition ex_machine_bare : machine :=
  Machine ∅
    [EvTempCreate ex_temp; EvUploadRead; EvTempWrite ex_temp ex_audio;
     EvWhisperRun ex_temp ex_audio; EvUnlink ex_temp]
    (Some ex_temp).


(** A startup in which every load succeeds. *)
Definition ex_loads_all : Loads :=
  mk_Loads true true (inr ex_encoder) (inr (ex_index (-1 # 10)))
    (inr ex_metadata) (inr ex_processor) (inr ex_indic) (inr ex_whisper).

Definition ex_started_all : ServerState :=
  fst (startup_event (ex_globals true) ex_loads_all ServerState_init).

(** A startup in which the metadata file is missing. *)
Definition ex_loads_no_metadata : Loads :=
  mk_Loads true true (inr ex_encoder) (inr (ex_index (-1 # 10)))
    (inl (RuntimeError "Metadata file not found: index/metadata.pkl"))
    (inr ex_processor) (inr ex_indic) (inr ex_whisper).

Local Close Scope Q_scope.

(** * Properties *)

Local Open Scope Q_scope.

(** ** Comparisons *)

Lemma Qlt_bool_true_iff (x y : Q) : Qlt_bool x y = true <-> x < y.
Proof. unfold Qlt_bool, Qlt. apply Z.ltb_lt. Qed.

Lemma Qlt_bool_false_iff (x y : Q) : Qlt_bool x y = false <-> y <= x.
Proof. unfold Qlt_bool, Qle. rewrite Z.ltb_ge. reflexivity. Qed.

Lemma descending_strongly (l : list Q) :
  descending l <-> StronglySorted (fun a b => b <= a) l.
Proof.
  split.
  - apply Sorted_StronglySorted. intros a b c Hab Hbc.
    eapply Qle_trans; eassumption.
  - apply StronglySorted_Sorted.
Qed.

Lemma descending_take (n : nat) (l : list Q) :
  descending l -> descending (take n l).
Proof.
  rewrite !descending_strongly. intros H. revert n.
  induction H as [|a l Hl IH Ha]; intros [|n]; simpl; try constructor.
  - apply IH.
  - apply Forall_take, Ha.
Qed.

Lemma descending_map_filter {A : Type} (f : A -> Q) (keep : A -> bool)
    (l : list A) :
  descending (map f l) -> descending (map f (List.filter keep l)).
Proof.
  rewrite !descending_strongly.
  induction l as [|a l IH]; simpl; intros H; [constructor|].
  inversion H as [|? ? Hl Ha]; subst.
  destruct (keep a); simpl; [|auto].
  constructor; [auto|].
  rewrite List.Forall_forall in *. intros x Hx. apply Ha.
  apply in_map_iff in Hx as (y & <- & Hy).
  apply in_map. apply filter_In in Hy. tauto.
Qed.

Lemma fst_zip_take {A B : Type} (l : list A) (k : list B) :
  map fst (zip l k) = take (length k) l.
Proof.
  revert k. induction l as [|a l IH]; intros [|b k]; simpl; try reflexivity.
  f_equal. apply IH.
Qed.

Lemma filter_sublist {A : Type} (keep : A -> bool) (l : list A) :
  List.filter keep l `sublist_of` l.
Proof.
  induction l as [|a l IH]; simpl; [constructor|].
  destruct (keep a); [apply sublist_skip | apply sublist_cons]; exact IH.
Qed.

(** ** Running the monad in proofs *)

Arguments Qlt_bool : simpl never.
Arguments py_getitem : simpl never.

Ltac run_step :=
  unfold lift, emit, bind, ret, raise, try_except in *; simpl in *.

(** ** Stripping *)

Lemma lstrip_no_leading (s : string) : starts_with_space (lstrip s) = false.
Proof.
  induction s as [|c s IH]; simpl; [reflexivity|].
  destruct (isspace c) eqn:Hc; [exact IH|]. simpl. exact Hc.
Qed.

Lemma rstrip_no_trailing (s : string) : ends_with_space (rstrip s) = false.
Proof.
  induction s as [|c s IH]; simpl; [reflexivity|].
  destruct (rstrip s) as [|c' r].
  - destruct (isspace c) eqn:Hc; simpl; [reflexivity|exact Hc].
  - exact IH.
Qed.

Lemma rstrip_head (c : ascii) (s : string) :
  isspace c = false -> exists r, rstrip (String c s) = String c r.
Proof.
  intros Hc. simpl. destruct (rstrip s); rewrite ?Hc; eauto.
Qed.

(** A stripped text has no whitespace at either end. *)
Lemma strip_trimmed (s : string) :
  starts_with_space (strip s) = false /\ ends_with_space (strip s) = false.
Proof.
  unfold strip. split; [|apply rstrip_no_trailing].
  pose proof (lstrip_no_leading s) as H.
  destruct (lstrip s) as [|c x]; [reflexivity|].
  destruct (rstrip_head c x H) as (r & ->). exact H.
Qed.

(** ** Startup *)

Section StartupFacts.
Variable G : Globals.
Variable L : Loads.

(** The service becomes ready only with the embedding model, the index and
    the metadata loaded. *)
Lemma startup_event_ready st st' :
  startup_event G L st = (st', None) ->
  ready st' = true /\
  is_Some (model st') /\ is_Some (index st') /\ is_Some (metadata st').
Proof.
  unfold startup_event, load_embedding_model, load_index_and_metadata,
    load_whisper_model, load_indicseamless_model.
  destruct (load_SentenceTransformer L); [discriminate|].
  destruct (load_faiss_index L); [discriminate|].
  destruct (load_pickle L); [discriminate|].
  intros [= <-]. cbn.
  destruct (WHISPER_AVAILABLE G), (load_whisper L), (INDICSEAMLESS_AVAILABLE L),
    (use_indicseamless L), (load_AutoProcessor L), (load_AutoModel L);
    cbn; eauto.
Qed.

(** A failed startup leaves the flag and the speech slots as they were. *)
Lemma startup_event_failed st st' e :
  startup_event G L st = (st', Some e) ->
  ready st' = ready st /\
  whisper_model st' = whisper_model st /\
  indicseamless_model st' = indicseamless_model st /\
  indicseamless_processor st' = indicseamless_processor st.
Proof.
  unfold startup_event, load_embedding_model, load_index_and_metadata.
  destruct (load_SentenceTransformer L); [intros [= <- _]; auto|].
  destruct (load_faiss_index L); [intros [= <- _]; auto|].
  destruct (load_pickle L); [intros [= <- _]; auto|].
  discriminate.
Qed.

(** After a startup from the initial state, a Whisper model is held only
    if Whisper can be imported, and an IndicSeamless model only with its
    processor: when the early exit of [transcribe_audio] is taken, neither
    slot is loaded. *)
Lemma startup_event_slots st' r :
  startup_event G L ServerState_init = (st', r) ->
  (WHISPER_AVAILABLE G = false -> whisper_model st' = None) /\
  (is_Some (indicseamless_model st') ->
   is_Some (indicseamless_processor st')) /\
  (no_stt_installed G st' = true ->
   primary_slot st' = None /\ whisper_model st' = None).
Proof.
  unfold startup_event, load_embedding_model, load_index_and_metadata,
    load_whisper_model, load_indicseamless_model, no_stt_installed,
    primary_slot.
  assert (Hinit : forall s : ServerState,
            whisper_model s = None -> indicseamless_model s = None ->
            (WHISPER_AVAILABLE G = false -> whisper_model s = None) /\
            (is_Some (indicseamless_model s) ->
             is_Some (indicseamless_processor s)) /\
            (negb (WHISPER_AVAILABLE G) && negb (truthy (indicseamless_model s))
             = true ->
             match indicseamless_model s, indicseamless_processor s with
             | Some mdl, Some proc => Some (proc, mdl)
             | _, _ => None
             end = None /\ whisper_model s = None)).
  { intros s Hw Hi. rewrite Hw, Hi. split; [auto|].
    split; [intros [? [=]]|auto]. }
  destruct (load_SentenceTransformer L); [intros [= <- _]; auto|].
  destruct (load_faiss_index L); [intros [= <- _]; auto|].
  destruct (load_pickle L); [intros [= <- _]; auto|].
  intros [= <- _].
  destruct (WHISPER_AVAILABLE G), (load_whisper L), (INDICSEAMLESS_AVAILABLE L),
    (use_indicseamless L), (load_AutoProcessor L), (load_AutoModel L);
    cbn; repeat split; intros; try discriminate; try reflexivity; eauto;
    match goal with H : is_Some None |- _ => destruct H as [? [=]] end.
Qed.
End StartupFacts.

(** ** Traces of composed computations *)

Section EmitsOnly.
Variable P : event -> Prop.

Lemma emits_only_ret {A} (a : A) : emits_only P (ret a).
Proof. intros m. exists []. simpl. rewrite app_nil_r. auto. Qed.

Lemma emits_only_raise {A} (e : exn) : emits_only P (@raise A e).
Proof. intros m. exists []. simpl. rewrite app_nil_r. auto. Qed.

Lemma emits_only_lift {A} (r : pyerr + A) : emits_only P (lift r).
Proof. destruct r; [apply emits_only_raise | apply emits_only_ret]. Qed.

Lemma emits_only_emit (ev : event) : P ev -> emits_only P (emit ev).
Proof. intros H m. exists [ev]. simpl. auto. Qed.

Lemma emits_only_bind {A B} (c : M A) (f : A -> M B) :
  emits_only P c -> (forall a, emits_only P (f a)) -> emits_only P (bind c f).
Proof.
  intros Hc Hf m. unfold bind. destruct (Hc m) as (tr1 & H1 & HF1).
  destruct (c m) as [m1 [e|a]]; simpl in *.
  - exists tr1. auto.
  - destruct (Hf a m1) as (tr2 & H2 & HF2). exists (tr1 ++ tr2).
    rewrite H2, H1, <- app_assoc. split; [reflexivity|].
    apply Forall_app; auto.
Qed.

Lemma emits_only_try_except {A} (body : M A) (handler : exn -> M A) :
  emits_only P body -> (forall e, emits_only P (handler e)) ->
  emits_only P (try_except body handler).
Proof.
  intros Hc Hh m. unfold try_except. destruct (Hc m) as (tr1 & H1 & HF1).
  destruct (body m) as [m1 [e|a]]; simpl in *.
  - assert (Hhandled :
      exists tr, trace (fst (handler e m1)) = trace m ++ tr /\ Forall P tr).
    { destruct (Hh e m1) as (tr2 & H2 & HF2). exists (tr1 ++ tr2).
      rewrite H2, H1, <- app_assoc. split; [reflexivity|].
      apply Forall_app; auto. }
    destruct e; [exact Hhandled|exact Hhandled|].
    exists tr1. auto.
  - exists tr1. auto.
Qed.

Lemma emits_only_os_path_exists (p : string) : emits_only P (os_path_exists p).
Proof. intros m. exists []. simpl. rewrite app_nil_r. auto. Qed.

Lemma emits_only_read_file (p : string) : emits_only P (read_file p).
Proof.
  intros m. exists []. unfold read_file. destruct (fs m !! p); simpl;
    rewrite app_nil_r; auto.
Qed.

Lemma emits_only_os_unlink (p : string) :
  P (EvUnlink p) -> emits_only P (os_unlink p).
Proof.
  intros H m. unfold os_unlink. destruct (fs m !! p); simpl.
  - exists [EvUnlink p]. auto.
  - exists []. rewrite app_nil_r. auto.
Qed.
End EmitsOnly.

Ltac emits_step :=
  first
    [ apply emits_only_ret
    | apply emits_only_raise
    | apply emits_only_lift
    | apply emits_only_emit
    | apply emits_only_os_path_exists
    | apply emits_only_read_file
    | apply emits_only_os_unlink
    | apply emits_only_bind; [|intros ?]
    | apply emits_only_try_except; [|intros ?]
    | match goal with
      | |- emits_only _ (match ?x with _ => _ end) => destruct x
      end ].

(** ** The result loop of [retrieve] *)

Section BuildResults.
Variable state : ServerState.

Lemma came_from_score e r :
  came_from state e r -> DocumentResult.score r = fst e.
Proof. intros (_ & cs & c & _ & _ & ->). reflexivity. Qed.

(** What a completed loop has done. *)
Lemma build_results_inr threshold pairs :
  forall acc m m' rs,
    build_results state threshold pairs acc m = (m', inr rs) ->
    exists new,
      rs = acc ++ new /\
      Forall2 (came_from state) (List.filter (survives threshold) pairs) new /\
      fs m' = fs m /\ temp_path m' = temp_path m /\
      trace m' =
        trace m ++ map EvMetadataIndex
                     (map snd (List.filter no_sentinel pairs)).
Proof.
  induction pairs as [|[distance chunk_idx] rest IH]; intros acc m m' rs H.
  - simpl in H. run_step. inversion H; subst. exists [].
    rewrite !app_nil_r. repeat split; constructor.
  - simpl in H. unfold survives, no_sentinel. simpl.
    destruct (chunk_idx =? -1)%Z eqn:Hs; simpl.
    + apply IH in H. exact H.
    + apply Z.eqb_neq in Hs. run_step.
      destruct (metadata_chunks state) as [e|cs] eqn:Hcs; simpl in H;
        [discriminate|].
      destruct (py_getitem cs chunk_idx) as [e|c] eqn:Hc; simpl in H;
        [discriminate|].
      destruct (below_threshold threshold distance) eqn:Hb; simpl.
      * apply IH in H as (new & -> & HF & Hfs & Htp & Htr). simpl in *.
        exists new. repeat split; try assumption.
        rewrite Htr, <- app_assoc. reflexivity.
      * apply IH in H as (new & -> & HF & Hfs & Htp & Htr). simpl in *.
        exists (make_result c distance :: new).
        rewrite <- app_assoc. repeat split; try assumption.
        -- constructor; [|exact HF]. split; [exact Hs|].
           exists cs, c. auto.
        -- rewrite Htr, <- app_assoc. reflexivity.
Qed.

(** Whatever the outcome, the loop indexes the chunk array with
    non-sentinel values only, and touches nothing else. *)
Lemma build_results_trace threshold pairs :
  forall acc m,
    exists tr,
      trace (fst (build_results state threshold pairs acc m)) = trace m ++ tr /\
      Forall (fun ev => exists i, ev = EvMetadataIndex i /\ i <> (-1)%Z) tr /\
      fs (fst (build_results state threshold pairs acc m)) = fs m.
Proof.
  induction pairs as [|[distance chunk_idx] rest IH]; intros acc m.
  - exists []. simpl. rewrite app_nil_r. repeat split. constructor.
  - simpl. destruct (chunk_idx =? -1)%Z eqn:Hs; [apply IH|].
    apply Z.eqb_neq in Hs. run_step.
    destruct (metadata_chunks state) as [e|cs]; simpl.
    { exists []. rewrite app_nil_r. repeat split. constructor. }
    destruct (py_getitem cs chunk_idx) as [e|c]; simpl.
    { exists [EvMetadataIndex chunk_idx]. repeat split.
      constructor; [eauto|constructor]. }
    destruct (below_threshold threshold distance);
      match goal with
      | |- context [build_results _ _ _ ?a ?m1] =>
          destruct (IH a m1) as (tr & Htr & HF & Hfs)
      end;
      exists (EvMetadataIndex chunk_idx :: tr); simpl in *;
      rewrite Htr, <- app_assoc; (repeat split; [|exact Hfs]);
      constructor; eauto.
Qed.

Lemma py_getitem_in_range {A : Type} (l : list A) (i : Z) :
  (0 <= i < Z.of_nat (length l))%Z -> exists x, py_getitem l i = inr x.
Proof.
  intros Hi. unfold py_getitem.
  destruct (i <? 0)%Z eqn:Hneg; [apply Z.ltb_lt in Hneg; lia|].
  destruct ((i <? 0)%Z || (Z.of_nat (length l) <=? i)%Z) eqn:Hout.
  { apply orb_true_iff in Hout as [H|H]; [congruence|].
    apply Z.leb_le in H. lia. }
  destruct (l !! Z.to_nat i) as [x|] eqn:Hx; [eauto|].
  apply lookup_ge_None in Hx. lia.
Qed.

(** The loop completes when every non-sentinel entry is a valid position
    of the chunk array, however many sentinels the row carries. *)
Lemma build_results_ok threshold cs pairs :
  metadata_chunks state = inr cs ->
  Forall (fun e => snd e = (-1)%Z \/ (0 <= snd e < Z.of_nat (length cs))%Z)
    pairs ->
  forall acc m, exists m' rs,
    build_results state threshold pairs acc m = (m', inr rs).
Proof.
  intros Hcs HF. induction HF as [|[distance chunk_idx] rest Hi _ IH];
    intros acc m; simpl.
  - run_step. eauto.
  - destruct (chunk_idx =? -1)%Z eqn:Hs; [apply IH|].
    apply Z.eqb_neq in Hs. simpl in Hi. destruct Hi as [Hi|Hi]; [easy|].
    destruct (py_getitem_in_range cs chunk_idx Hi) as (c & Hc).
    run_step. rewrite Hcs. simpl. rewrite Hc. simpl.
    destruct (below_threshold threshold distance); apply IH.
Qed.

Lemma meets_make_result t c d :
  meets t (make_result c d) = negb (Qlt_bool d t).
Proof. reflexivity. Qed.

(** The loop with a threshold and the loop without one make the same
    lookups and fail alike; when they complete, the thresholded results
    are the unthresholded ones that meet the threshold. *)
Lemma build_results_threshold t pairs :
  forall acc acc0 m,
    match build_results state None pairs acc0 m,
          build_results state (Some t) pairs acc m with
    | (m0, inr rs0), (m1, inr rs1) =>
        m0 = m1 /\ exists new0,
          rs0 = acc0 ++ new0 /\ rs1 = acc ++ List.filter (meets t) new0
    | (m0, inl e0), (m1, inl e1) => m0 = m1 /\ e0 = e1
    | _, _ => False
    end.
Proof.
  induction pairs as [|[distance chunk_idx] rest IH]; intros acc acc0 m; simpl.
  - run_step. split; [reflexivity|]. exists []. rewrite !app_nil_r. auto.
  - destruct (chunk_idx =? -1)%Z; [apply IH|].
    run_step.
    destruct (metadata_chunks state) as [e|cs]; simpl; [auto|].
    destruct (py_getitem cs chunk_idx) as [e|c]; simpl; [auto|].
    destruct (Qlt_bool distance t) eqn:Hlt.
    + specialize (IH acc (acc0 ++ [make_result c distance])
                    (Machine (fs m) (trace m ++ [EvMetadataIndex chunk_idx])
                       (temp_path m))).
      destruct (build_results state None rest _ _) as [m0 [e0|rs0]];
        destruct (build_results state (Some t) rest _ _) as [m1 [e1|rs1]];
        try exact IH.
      destruct IH as (-> & new0 & -> & ->). split; [reflexivity|].
      exists (make_result c distance :: new0).
      rewrite <- app_assoc. split; [reflexivity|].
      cbn [List.filter]. rewrite meets_make_result, Hlt. reflexivity.
    + specialize (IH (acc ++ [make_result c distance])
                    (acc0 ++ [make_result c distance])
                    (Machine (fs m) (trace m ++ [EvMetadataIndex chunk_idx])
                       (temp_path m))).
      destruct (build_results state None rest _ _) as [m0 [e0|rs0]];
        destruct (build_results state (Some t) rest _ _) as [m1 [e1|rs1]];
        try exact IH.
      destruct IH as (-> & new0 & -> & ->). split; [reflexivity|].
      exists (make_result c distance :: new0).
      rewrite <- !app_assoc. split; [reflexivity|].
      cbn [List.filter]. rewrite meets_make_result, Hlt. reflexivity.
Qed.
End BuildResults.

(** ** [retrieve] as a whole *)

Section RetrieveFacts.
Variable G : Globals.
Variable state : ServerState.

(** A request that is answered went through the whole pipeline. *)
Lemma retrieve_inr request m m' resp :
  retrieve G state request m = (m', inr resp) ->
  ready state = true /\
  exists di m1,
    search_rows G state request = Some di /\
    fs m1 = fs m /\
    build_results state (RetrievalRequest.threshold request)
      (zip (fst di) (snd di)) [] m1
    = (m', inr (RetrievalResponse.results resp)).
Proof.
  unfold retrieve, detect_query_language, encode, search, search_rows.
  intros H. destruct (ready state); [|discriminate]. split; [reflexivity|].
  run_step.
  repeat (case_match; simpl in *; simplify_eq);
    do 2 eexists; (split; [reflexivity|]); (split; [|eassumption]);
    reflexivity.
Qed.
End RetrieveFacts.

Section RetrieveLemmas.
Variable G : Globals.
Variable state : ServerState.

(** The answer of the loop does not depend on the machine it starts on. *)
Lemma build_results_answer threshold pairs :
  forall acc m1 m2,
    snd (build_results state threshold pairs acc m1)
    = snd (build_results state threshold pairs acc m2).
Proof.
  induction pairs as [|[distance chunk_idx] rest IH]; intros acc m1 m2; simpl.
  - reflexivity.
  - destruct (chunk_idx =? -1)%Z; [apply IH|]. run_step.
    destruct (metadata_chunks state) as [e|cs]; simpl; [reflexivity|].
    destruct (py_getitem cs chunk_idx) as [e|c]; simpl; [reflexivity|].
    destruct (below_threshold threshold distance); apply IH.
Qed.

(** [retrieve], stage by stage. *)
Lemma retrieve_unfold request m :
  retrieve G state request m =
  if negb (ready state) then (m, inl (HTTPException 503 "Service not ready"))
  else
    match retrieve_front G state (RetrievalRequest.query request)
            (RetrievalRequest.k request) m with
    | (m1, inl e) => (m1, inl e)
    | (m1, inr (detected_lang, di)) =>
        match build_results state (RetrievalRequest.threshold request)
                (zip (fst di) (snd di)) [] m1 with
        | (m2, inl e) => (m2, inl e)
        | (m2, inr results) =>
            (m2, inr (RetrievalResponse.mk (RetrievalRequest.query request)
                        results (Z.of_nat (length results)) detected_lang
                        (elapsed_ms G)))
        end
    end.
Proof.
  unfold retrieve, retrieve_front.
  destruct (ready state); [|reflexivity]. simpl. unfold bind.
  destruct (detect_query_language _ _ m) as [m1 [e|dl]]; [reflexivity|].
  destruct (encode _ _ m1) as [m2 [e|v]]; [reflexivity|].
  destruct (search _ _ _ m2) as [m3 [e|di]]; [reflexivity|].
  unfold ret at 2.
  destruct (build_results _ _ _ _ m3) as [m4 [e|rs]]; reflexivity.
Qed.

(** An answered retrieval without threshold is answered with any threshold,
    by the results that meet it. *)
Lemma retrieve_add_threshold query k lang_hint t m m' resp0 :
  retrieve G state (RetrievalRequest.mk query k lang_hint None) m
  = (m', inr resp0) ->
  exists resp,
    retrieve G state (RetrievalRequest.mk query k lang_hint (Some t)) m
    = (m', inr resp) /\
    RetrievalResponse.results resp
    = List.filter (meets t) (RetrievalResponse.results resp0).
Proof.
  rewrite !retrieve_unfold. simpl.
  destruct (ready state); [|discriminate]. simpl.
  destruct (retrieve_front G state query k m) as [m1 [e|[dl di]]];
    [discriminate|].
  pose proof (build_results_threshold state t (zip (fst di) (snd di))
                [] [] m1) as Hsim.
  destruct (build_results state None _ _ m1) as [m0 [e0|rs0]];
    destruct (build_results state (Some t) _ _ m1) as [m3 [e1|rs1]];
    try discriminate; try contradiction.
  destruct Hsim as (-> & new0 & -> & ->). simpl.
  intros [= <- <-]. simpl. eexists. split; reflexivity.
Qed.

Lemma filter_meets_all t (rs : list DocumentResult.t) :
  Forall (fun r => (t <= DocumentResult.score r)%Q) rs ->
  List.filter (meets t) rs = rs.
Proof.
  induction 1 as [|r rs Hr _ IH]; simpl; [reflexivity|].
  unfold meets at 1. apply Qlt_bool_false_iff in Hr. rewrite Hr. simpl.
  rewrite IH. reflexivity.
Qed.

(** Nor does the answer of [retrieve]. *)
Lemma retrieve_answer request m1 m2 :
  snd (retrieve G state request m1) = snd (retrieve G state request m2).
Proof.
  unfold retrieve, detect_query_language, encode, search.
  destruct (ready state); [|reflexivity]. run_step.
  repeat (case_match; simpl in *; simplify_eq); try reflexivity;
    repeat match goal with
    | H : build_results _ _ _ _ _ = _ |- _ =>
        apply (f_equal snd) in H; simpl in H
    end;
    match goal with
    | H1 : snd (build_results _ ?t ?p ?a ?ma) = _,
      H2 : snd (build_results _ ?t ?p ?a ?mb) = _ |- _ =>
        rewrite (build_results_answer t p a ma mb) in H1; congruence
    end.
Qed.

Lemma Forall_snd_zip {A B : Type} (P : B -> Prop) (l : list A) (k : list B) :
  Forall P k -> Forall (fun e => P (snd e)) (zip l k).
Proof.
  intros H. revert l. induction H as [|b k Hb _ IH]; intros [|a l]; simpl;
    constructor; auto.
Qed.

(** The pipeline answers when the service is ready, detection is harmless,
    embedding and search answer, and the non-sentinel neighbours are
    positions of the chunk array. *)
Lemma retrieve_ok request m di cs :
  ready state = true ->
  detection_harmless G (RetrievalRequest.query request) ->
  search_rows G state request = Some di ->
  metadata_chunks state = inr cs ->
  Forall (fun i => i = (-1)%Z \/ (0 <= i < Z.of_nat (length cs))%Z) (snd di) ->
  exists m' resp, retrieve G state request m = (m', inr resp).
Proof.
  intros Hr Hd Hs Hcs HF.
  unfold retrieve, detect_query_language, encode, search, search_rows in *.
  rewrite Hr. simpl.
  destruct (model state) as [enc|]; [|discriminate].
  destruct (index state) as [ix|]; [|discriminate].
  destruct (enc _) as [e|v] eqn:Hv; [discriminate|].
  destruct (ix _ _) as [e|di'] eqn:Hdi; [discriminate|].
  injection Hs as ->.
  pose proof (Forall_snd_zip _ (fst di) (snd di) HF) as HF'.
  run_step.
  destruct Hd as [Hd|[(lang & Hd)|(msg & Hd)]]; rewrite Hd; simpl;
    try (destruct (LANGDETECT_AVAILABLE G); simpl);
    try rewrite Hd; try rewrite Hv; simpl; try rewrite Hdi; simpl;
    match goal with
    | |- context [build_results state ?t ?p ?a ?m1] =>
        destruct (build_results_ok state t cs p Hcs HF' a m1) as (m' & rs & ->)
    end; eauto.
Qed.

(** Every call of [retrieve] indexes the chunk array with non-sentinel
    values only. *)
Lemma retrieve_trace request :
  emits_only (fun ev => ev <> EvMetadataIndex (-1)) (retrieve G state request).
Proof.
  unfold retrieve, detect_query_language, encode, search.
  repeat emits_step; try discriminate.
  intros m.
  match goal with
  | |- context [build_results state ?t ?p ?a m] =>
      destruct (build_results_trace state t p a m) as (tr & Htr & HF & _)
  end.
  exists tr. split; [exact Htr|].
  eapply Forall_impl; [exact HF|].
  intros ev (i & -> & Hi) [=]. congruence.
Qed.
End RetrieveLemmas.

(** * The retrieval claims *)

(** C4. The results of an answered retrieval are, in order, the results
    built from the entries of the index rows that are neither sentinels nor
    below the threshold: a subsequence of the rows, never reordered.  When
    the index search returns its distances in descending order, the scores
    of the results are in descending order as well, equal scores keeping
    the order of the search. *)
Theorem retrieve_preserves_search_order
    (G : Globals) (state : ServerState) (request : RetrievalRequest.t)
    (m m' : machine) (resp : RetrievalResponse.t) :
  retrieve G state request m = (m', inr resp) ->
  exists di,
    search_rows G state request = Some di /\
    let rows := zip (fst di) (snd di) in
    let kept := List.filter (survives (RetrievalRequest.threshold request)) rows in
    kept `sublist_of` rows /\
    Forall2 (came_from state) kept (RetrievalResponse.results resp) /\
    map DocumentResult.score (RetrievalResponse.results resp) = map fst kept /\
    (descending (fst di) ->
     descending (map DocumentResult.score (RetrievalResponse.results resp))).
Proof.
  intros H. apply retrieve_inr in H as (_ & di & m1 & Hs & _ & Hb).
  exists di. split; [exact Hs|]. intros rows kept.
  apply build_results_inr in Hb as (new & Hnew & HF & _). simpl in Hnew.
  rewrite Hnew. fold rows in HF. fold kept in HF.
  assert (Hscore : map DocumentResult.score new = map fst kept).
  { clear -HF. induction HF as [|e r es rs Her _ IH]; simpl; [reflexivity|].
    rewrite IH, (came_from_score _ _ _ Her). reflexivity. }
  split; [apply filter_sublist|]. split; [exact HF|]. split; [exact Hscore|].
  intros Hd. rewrite Hscore. unfold kept. apply descending_map_filter.
  unfold rows. rewrite fst_zip_take. apply descending_take, Hd.
Qed.

(** C5. With a threshold set, every result of an answered retrieval has a
    score that is at least the threshold; and the results are exactly the
    results of the same retrieval without a threshold whose score is at
    least the threshold, in the same order. *)
Theorem retrieve_threshold_filter
    (G : Globals) (state : ServerState) (query : string) (k : Z)
    (lang_hint : option string) (t : Q) (m m' : machine)
    (resp : RetrievalResponse.t) :
  retrieve G state (RetrievalRequest.mk query k lang_hint (Some t)) m
  = (m', inr resp) ->
  Forall (fun r => t <= DocumentResult.score r) (RetrievalResponse.results resp) /\
  exists resp0,
    retrieve G state (RetrievalRequest.mk query k lang_hint None) m
    = (m', inr resp0) /\
    RetrievalResponse.results resp
    = List.filter (meets t) (RetrievalResponse.results resp0).
Proof.
  intros H.
  assert (Hex : exists resp0,
    retrieve G state (RetrievalRequest.mk query k lang_hint None) m
    = (m', inr resp0) /\
    RetrievalResponse.results resp
    = List.filter (meets t) (RetrievalResponse.results resp0)).
  { revert H. rewrite !retrieve_unfold. simpl.
    destruct (ready state); [|discriminate]. simpl.
    destruct (retrieve_front G state query k m) as [m1 [e|[dl di]]];
      [discriminate|].
    pose proof (build_results_threshold state t (zip (fst di) (snd di))
                  [] [] m1) as Hsim.
    destruct (build_results state None _ _ m1) as [m0 [e0|rs0]];
      destruct (build_results state (Some t) _ _ m1) as [m3 [e1|rs1]];
      try discriminate; try contradiction.
    destruct Hsim as (-> & new0 & -> & ->). simpl.
    intros [= <- <-]. simpl. eexists. split; reflexivity. }
  split; [|exact Hex].
  destruct Hex as (resp0 & _ & ->).
  apply Forall_forall. intros r Hr. apply list_elem_of_In in Hr.
  apply filter_In in Hr as [_ Hr]. unfold meets in Hr.
  apply negb_true_iff, Qlt_bool_false_iff in Hr. exact Hr.
Qed.

(** C6. Every call of [retrieve] indexes the chunk array with non-sentinel
    values only; every result of an answered call is built from a
    non-sentinel entry of the index rows; and a call whose rows carry
    sentinels is answered all the same when the other entries are positions
    of the chunk array. *)
Theorem retrieve_skips_sentinels
    (G : Globals) (state : ServerState) (request : RetrievalRequest.t)
    (m : machine) :
  emits_only (fun ev => ev <> EvMetadataIndex (-1)) (retrieve G state request) /\
  (forall m' resp,
     retrieve G state request m = (m', inr resp) ->
     exists di,
       search_rows G state request = Some di /\
       Forall2 (came_from state)
         (List.filter (survives (RetrievalRequest.threshold request))
            (zip (fst di) (snd di)))
         (RetrievalResponse.results resp)) /\
  (forall di cs,
     ready state = true ->
     detection_harmless G (RetrievalRequest.query request) ->
     search_rows G state request = Some di ->
     metadata_chunks state = inr cs ->
     Forall (fun i => i = (-1)%Z \/ (0 <= i < Z.of_nat (length cs))%Z) (snd di) ->
     exists m' resp, retrieve G state request m = (m', inr resp)).
Proof.
  split; [apply retrieve_trace|]. split.
  - intros m' resp H.
    apply retrieve_inr in H as (_ & di & m1 & Hs & _ & Hb).
    exists di. split; [exact Hs|].
    apply build_results_inr in Hb as (new & Hnew & HF & _).
    simpl in Hnew. rewrite Hnew. exact HF.
  - intros di cs Hr Hd Hs Hcs HF. eapply retrieve_ok; eassumption.
Qed.

(** C10, as amended. When a retrieval without threshold is answered with a
    non-empty result list whose lowest score lies between 0 and 1, the same
    retrieval with that score as threshold passes the schema and is
    answered with the same results. *)
Theorem retrieve_round_trip
    (G : Globals) (state : ServerState) (query : string) (k : Z)
    (lang_hint : option string) (t : Q) (m m1 m2 : machine)
    (resp0 : RetrievalResponse.t) :
  post_retrieve G state (RetrievalRequest.mk query k lang_hint None) m
  = (m1, inr resp0) ->
  lowest_score t (RetrievalResponse.results resp0) ->
  0 <= t <= 1 ->
  exists m3 resp1,
    post_retrieve G state (RetrievalRequest.mk query k lang_hint (Some t)) m2
    = (m3, inr resp1) /\
    RetrievalResponse.results resp1 = RetrievalResponse.results resp0.
Proof.
  unfold post_retrieve, RetrievalRequest.validate. simpl.
  intros H [_ Hlow] [H0 H1].
  destruct ((1 <=? Z.of_nat (String.length query))%Z && (1 <=? k)%Z
            && (k <=? 50)%Z) eqn:Hv; simpl in *; [|discriminate].
  apply Qle_bool_iff in H0, H1. rewrite H0, H1. simpl.
  apply (retrieve_add_threshold G state _ _ _ t) in H as (resp1 & H & Hres).
  rewrite (filter_meets_all _ _ Hlow) in Hres.
  pose proof (retrieve_answer G state
                (RetrievalRequest.mk query k lang_hint (Some t)) m2 m) as Ha.
  rewrite H in Ha. simpl in Ha.
  destruct (retrieve G state _ m2) as [m3 r]. simpl in Ha. subst r.
  exists m3, resp1. split; [reflexivity|exact Hres].
Qed.

Lemma retrieve_preserves_search_order_witness :
  retrieve (ex_globals true) (ex_state (-1 # 10) None None None true)
    (ex_request None) ex_machine
  = (ex_machine_retrieved, inr (ex_response (-1 # 10))) /\
  descending
    (map DocumentResult.score
       (RetrievalResponse.results (ex_response (-1 # 10)))).
Proof.
  assert (H : retrieve (ex_globals true) (ex_state (-1 # 10) None None None true)
                (ex_request None) ex_machine
              = (ex_machine_retrieved, inr (ex_response (-1 # 10)))).
  { vm_compute. reflexivity. }
  split; [exact H|].
  destruct (retrieve_preserves_search_order _ _ _ _ _ _ H)
    as (di & Hs & _ & _ & _ & Hd).
  apply Hd. vm_compute in Hs. injection Hs as <-. simpl.
  repeat constructor; discriminate.
Defined.

Lemma retrieve_threshold_filter_witness :
  retrieve (ex_globals true) (ex_state (-1 # 10) None None None true)
    (ex_request (Some (1 # 2))) ex_machine
  = (ex_machine_retrieved, inr ex_response_half) /\
  Forall (fun r => 1 # 2 <= DocumentResult.score r)
    (RetrievalResponse.results ex_response_half).
Proof.
  assert (H : retrieve (ex_globals true) (ex_state (-1 # 10) None None None true)
                (ex_request (Some (1 # 2))) ex_machine
              = (ex_machine_retrieved, inr ex_response_half)).
  { vm_compute. reflexivity. }
  split; [exact H|].
  exact (proj1 (retrieve_threshold_filter _ _ _ _ _ _ _ _ _ H)).
Defined.

Lemma retrieve_skips_sentinels_witness :
  Forall (fun i => i = (-1)%Z \/ (0 <= i < 3)%Z) [2; 0; 1; -1; -1]%Z /\
  exists m' resp,
    retrieve (ex_globals true) (ex_state (-1 # 10) None None None true)
      (ex_request None) ex_machine
    = (m', inr resp).
Proof.
  assert (HF : Forall (fun i => i = (-1)%Z \/ (0 <= i < 3)%Z)
                 [2; 0; 1; -1; -1]%Z).
  { repeat constructor; lia. }
  split; [exact HF|].
  refine (proj2 (proj2 (retrieve_skips_sentinels (ex_globals true)
            (ex_state (-1 # 10) None None None true) (ex_request None)
            ex_machine))
            ([9 # 10; 1 # 2; -1 # 10; -3 # 1; -3 # 1], [2; 0; 1; -1; -1]%Z)
            (chunks ex_metadata) _ _ _ _ HF).
  - reflexivity.
  - right. left. exists "en". reflexivity.
  - reflexivity.
  - reflexivity.
Defined.

Lemma retrieve_round_trip_witness :
  post_retrieve (ex_globals true) (ex_state (1 # 4) None None None true)
    (ex_request None) ex_machine
  = (ex_machine_retrieved, inr (ex_response (1 # 4))) /\
  lowest_score (1 # 4) (RetrievalResponse.results (ex_response (1 # 4))) /\
  exists m3 resp1,
    post_retrieve (ex_globals true) (ex_state (1 # 4) None None None true)
      (ex_request (Some (1 # 4))) ex_machine_retrieved
    = (m3, inr resp1) /\
    RetrievalResponse.results resp1 = ex_results (1 # 4).
Proof.
  assert (H : post_retrieve (ex_globals true)
                (ex_state (1 # 4) None None None true)
                (ex_request None) ex_machine
              = (ex_machine_retrieved, inr (ex_response (1 # 4)))).
  { vm_compute. reflexivity. }
  assert (Hl : lowest_score (1 # 4)
                 (RetrievalResponse.results (ex_response (1 # 4)))).
  { split.
    - right. right. left. reflexivity.
    - repeat constructor; discriminate. }
  split; [exact H|]. split; [exact Hl|].
  apply (retrieve_round_trip _ _ _ _ _ _ _ _ ex_machine_retrieved _ H Hl).
  split; discriminate.
Defined.

(** C10 as stated fails on the example deployment:
    the lowest score of the first answer is negative, and the schema rejects
    it as a threshold. *)
Lemma retrieve_round_trip_rejected :
  post_retrieve (ex_globals true) (ex_state (-1 # 10) None None None true)
    (ex_request None) ex_machine
  = (ex_machine_retrieved, inr (ex_response (-1 # 10))) /\
  lowest_score (-1 # 10) (RetrievalResponse.results (ex_response (-1 # 10))) /\
  post_retrieve (ex_globals true) (ex_state (-1 # 10) None None None true)
    (ex_request (Some (-1 # 10))) ex_machine_retrieved
  = (ex_machine_retrieved, inl (HTTPException 422 "Unprocessable Entity")).
Proof.
  split; [vm_compute; reflexivity|]. split.
  - split.
    + right. right. left. reflexivity.
    + repeat constructor; discriminate.
  - vm_compute. reflexivity.
Qed.

(** * The transcription chain, block by block *)

Ltac norm_trace := rewrite <- ?app_assoc; simpl; try reflexivity.

Ltac run_goal :=
  unfold lift, emit, bind, ret, raise, try_except;
  cbn beta iota delta [fst snd fs trace temp_path].

Section TranscribeLemmas.
Variable G : Globals.
Variable state : ServerState.

Lemma read_file_present p c m :
  fs m !! p = Some c -> read_file p m = (m, inr c).
Proof. intros H. unfold read_file. rewrite H. reflexivity. Qed.

Lemma os_unlink_present p c m :
  fs m !! p = Some c ->
  os_unlink p m
  = (Machine (delete p (fs m)) (trace m ++ [EvUnlink p]) (temp_path m), inr tt).
Proof. intros H. unfold os_unlink. rewrite H. reflexivity. Qed.

Lemma unlink_if_exists_present p c m :
  fs m !! p = Some c ->
  unlink_if_exists p m
  = (Machine (delete p (fs m)) (trace m ++ [EvUnlink p]) (temp_path m), inr tt).
Proof.
  intros H. unfold unlink_if_exists, os_path_exists, bind.
  rewrite bool_decide_eq_true_2 by (rewrite H; eauto).
  apply (os_unlink_present _ c), H.
Qed.

Lemma unlink_if_exists_absent p m :
  fs m !! p = None -> unlink_if_exists p m = (m, inr tt).
Proof.
  intros H. unfold unlink_if_exists, os_path_exists, bind.
  rewrite bool_decide_eq_false_2; [reflexivity|].
  rewrite H. intros [? [=]].
Qed.

Lemma detect_transcript_language_spec t m :
  detect_transcript_language G t m
  = (Machine (fs m) (trace m ++ detect_events G t) (temp_path m),
     inr (transcript_language G t)).
Proof.
  unfold detect_transcript_language, detect_events, transcript_language.
  destruct (LANGDETECT_AVAILABLE G).
  - run_step. destruct (detect G t); reflexivity.
  - unfold ret. rewrite app_nil_r. destruct m; reflexivity.
Qed.

(** The primary block on a machine that holds the audio at [p]. *)
Lemma try_indicseamless_spec p c m :
  fs m !! p = Some c ->
  try_indicseamless G state p m =
  match primary_slot state with
  | Some (proc, mdl) =>
      match primary_outcome proc mdl c with
      | inr t =>
          (Machine (delete p (fs m))
             (trace m ++ [EvPrimaryRun p c] ++ detect_events G t ++ [EvUnlink p])
             (temp_path m),
           inr (Some (primary_response G t)))
      | inl e =>
          (Machine (fs m) (trace m ++ [EvPrimaryRun p c]) (temp_path m),
           inr None)
      end
  | None => (m, inr None)
  end.
Proof.
  intros H. unfold try_indicseamless, primary_slot, primary_outcome.
  destruct (indicseamless_model state) as [mdl|]; [|reflexivity].
  destruct (indicseamless_processor state) as [proc|]; [|reflexivity].
  unfold indicseamless_body. run_goal.
  rewrite (read_file_present _ _ _ H). run_goal.
  destruct (proc c) as [e|inputs]; run_goal; [reflexivity|].
  destruct (mdl inputs) as [e|t]; run_goal; [reflexivity|].
  rewrite detect_transcript_language_spec. run_goal.
  erewrite os_unlink_present by (cbn [fs]; exact H). run_goal.
  unfold primary_response. norm_trace.
Qed.

(** The Whisper block on a machine that holds the audio at [p]. *)
Lemma whisper_or_unavailable_spec p c m :
  fs m !! p = Some c ->
  whisper_or_unavailable state p m =
  match whisper_model state with
  | Some wm =>
      (Machine (delete p (fs m)) (trace m ++ [EvWhisperRun p c; EvUnlink p])
         (temp_path m),
       fallback_answer (wm c))
  | None =>
      (Machine (delete p (fs m)) (trace m ++ [EvUnlink p]) (temp_path m),
       inl (HTTPException 501 "No STT model available"))
  end.
Proof.
  intros H. unfold whisper_or_unavailable.
  destruct (whisper_model state) as [wm|].
  - unfold whisper_body, whisper_handler, fallback_answer. run_goal.
    rewrite (read_file_present _ _ _ H). run_goal.
    destruct (wm c) as [e|result]; run_goal.
    + erewrite unlink_if_exists_present by (cbn [fs]; exact H). run_goal.
      norm_trace.
    + erewrite os_unlink_present by (cbn [fs]; exact H). run_goal.
      destruct (whisper_response result) as [e|resp]; run_goal.
      * rewrite unlink_if_exists_absent by (cbn [fs]; apply lookup_delete_eq).
        run_goal. norm_trace.
      * norm_trace.
  - run_goal. erewrite unlink_if_exists_present by exact H. reflexivity.
Qed.

Lemma transcribe_handler_http status_code detail m :
  transcribe_handler (HTTPException status_code detail) m
  = (m, inl (HTTPException status_code detail)).
Proof. reflexivity. Qed.

Lemma fallback_answer_handled r m :
  match fallback_answer r with
  | inl e => transcribe_handler e m
  | inr resp => (m, inr resp)
  end = (m, fallback_answer r).
Proof.
  unfold fallback_answer. destruct r as [e|result]; [reflexivity|].
  destruct (whisper_response result); reflexivity.
Qed.

(** The early exit. *)
Lemma transcribe_audio_not_installed audio m :
  no_stt_installed G state = true ->
  transcribe_audio G state audio m
  = (Machine (fs m) (trace m) None,
     inl (HTTPException 501
            "No STT model available. Install Whisper or IndicSeamless.")).
Proof.
  unfold no_stt_installed, transcribe_audio. intros ->. reflexivity.
Qed.

(** The Whisper block answers with a response or with status 500. *)
Lemma fallback_answer_shape (r : pyerr + WhisperResult.t) :
  (exists resp, fallback_answer r = inr resp) \/
  (exists detail, fallback_answer r = inl (HTTPException 500 detail)).
Proof.
  unfold fallback_answer. destruct r as [e|result]; [eauto|].
  destruct (whisper_response result); eauto.
Qed.

(** The temporary file cannot be created: nothing is created, read or
    run. *)
Lemma transcribe_audio_create_error audio e m :
  no_stt_installed G state = false ->
  temp_create_error G (upload_suffix G audio) = Some e ->
  transcribe_audio G state audio m
  = (Machine (fs m) (trace m) None,
     inl (HTTPException 500 ("Transcription failed: " +:+ str e))).
Proof.
  unfold no_stt_installed, transcribe_audio. intros -> He.
  unfold transcribe_body, NamedTemporaryFile, new_frame,
    transcribe_handler, locals_temp_path.
  run_goal. rewrite He. run_goal. reflexivity.
Qed.

(** The upload cannot be read: the file that was created stays. *)
Lemma transcribe_audio_read_error audio e m :
  no_stt_installed G state = false ->
  temp_created G audio ->
  upload_read audio = inl (ReadFailed e) ->
  transcribe_audio G state audio m
  = (Machine (<[upload_path G audio := []]> (fs m))
       (trace m ++ [EvTempCreate (upload_path G audio); EvUploadRead]) None,
     inl (HTTPException 500 ("Transcription failed: " +:+ str e))).
Proof.
  unfold no_stt_installed, transcribe_audio, temp_created. intros -> Ht He.
  unfold transcribe_body, NamedTemporaryFile, audio_read, new_frame,
    transcribe_handler, locals_temp_path, upload_path.
  run_goal. rewrite Ht. run_goal. rewrite He. run_goal. norm_trace.
Qed.

(** The read of the upload is cancelled: the [CancelledError] leaves the
    handler, and the file that was created stays. *)
Lemma transcribe_audio_read_cancelled audio m :
  no_stt_installed G state = false ->
  temp_created G audio ->
  upload_read audio = inl ReadCancelled ->
  transcribe_audio G state audio m
  = (Machine (<[upload_path G audio := []]> (fs m))
       (trace m ++ [EvTempCreate (upload_path G audio); EvUploadRead]) None,
     inl CancelledError).
Proof.
  unfold no_stt_installed, transcribe_audio, temp_created. intros -> Ht He.
  unfold transcribe_body, NamedTemporaryFile, audio_read, new_frame,
    transcribe_handler, locals_temp_path, upload_path.
  run_goal. rewrite Ht. run_goal. rewrite He. run_goal. norm_trace.
Qed.

(** The upload cannot be written to the file: the file stays, holding what
    was written. *)
Lemma transcribe_audio_write_error audio c e written m :
  no_stt_installed G state = false ->
  temp_created G audio ->
  upload_read audio = inr c ->
  temp_write_error G (upload_path G audio) c = Some (e, written) ->
  transcribe_audio G state audio m
  = (Machine (<[upload_path G audio := written]> (fs m))
       (trace m ++ [EvTempCreate (upload_path G audio); EvUploadRead]) None,
     inl (HTTPException 500 ("Transcription failed: " +:+ str e))).
Proof.
  unfold no_stt_installed, transcribe_audio, temp_created. intros -> Ht Hc Hw.
  unfold transcribe_body, NamedTemporaryFile, audio_read, new_frame,
    temp_file_write, transcribe_handler, locals_temp_path.
  fold (upload_path G audio). set (p := upload_path G audio) in *.
  run_goal. rewrite Ht. run_goal. rewrite Hc. run_goal.
  fold (upload_path G audio). fold p. rewrite Hw. run_goal.
  rewrite insert_insert_eq. norm_trace.
Qed.

(** The upload is persisted: the chain runs on it. *)
Lemma transcribe_audio_read_ok audio c m :
  no_stt_installed G state = false ->
  temp_created G audio ->
  upload_read audio = inr c ->
  temp_written G audio c ->
  transcribe_audio G state audio m =
  let p := upload_path G audio in
  match primary_slot state with
  | Some (proc, mdl) =>
      match primary_outcome proc mdl c with
      | inr t =>
          (Machine (delete p (fs m))
             (trace m ++ persisted p c ++ [EvPrimaryRun p c]
                ++ detect_events G t ++ [EvUnlink p])
             (Some p),
           inr (primary_response G t))
      | inl _ =>
          match whisper_model state with
          | Some wm =>
              (Machine (delete p (fs m))
                 (trace m ++ persisted p c
                    ++ [EvPrimaryRun p c; EvWhisperRun p c; EvUnlink p])
                 (Some p),
               fallback_answer (wm c))
          | None =>
              (Machine (delete p (fs m))
                 (trace m ++ persisted p c ++ [EvPrimaryRun p c; EvUnlink p])
                 (Some p),
               inl (HTTPException 501 "No STT model available"))
          end
      end
  | None =>
      match whisper_model state with
      | Some wm =>
          (Machine (delete p (fs m))
             (trace m ++ persisted p c ++ [EvWhisperRun p c; EvUnlink p])
             (Some p),
           fallback_answer (wm c))
      | None =>
          (Machine (delete p (fs m)) (trace m ++ persisted p c ++ [EvUnlink p])
             (Some p),
           inl (HTTPException 501 "No STT model available"))
      end
  end.
Proof.
  unfold no_stt_installed, transcribe_audio, temp_created, temp_written.
  intros -> Ht Hc Hw.
  unfold transcribe_body, NamedTemporaryFile, audio_read, new_frame,
    temp_file_write, assign_temp_path, persisted.
  fold (upload_path G audio) in *. set (p := upload_path G audio) in *.
  run_goal. rewrite Ht. run_goal. rewrite Hc. run_goal.
  fold (upload_path G audio). fold p. rewrite Hw. run_goal.
  set (m1 := Machine _ _ _).
  assert (H1 : fs m1 !! p = Some c) by apply lookup_insert_eq.
  assert (Hfs : delete p (fs m1) = delete p (fs m)).
  { unfold m1. cbn [fs]. rewrite !delete_insert_eq. reflexivity. }
  rewrite (try_indicseamless_spec p c m1 H1).
  destruct (primary_slot state) as [[proc mdl]|].
  - destruct (primary_outcome proc mdl c) as [e|t].
    + set (m2 := Machine _ _ _).
      assert (H2 : fs m2 !! p = Some c) by exact H1.
      rewrite (whisper_or_unavailable_spec p c m2 H2).
      destruct (whisper_model state) as [wm|].
      * destruct (fallback_answer_shape (wm c)) as [(resp & ->)|(d & ->)];
          unfold m2; cbn [fs trace temp_path transcribe_handler raise];
          rewrite Hfs; unfold m1; cbn [trace]; norm_trace.
      * unfold m2. cbn [fs trace temp_path transcribe_handler raise].
        rewrite Hfs. unfold m1. cbn [trace]. norm_trace.
    + rewrite Hfs. unfold m1. cbn [trace temp_path]. norm_trace.
  - rewrite (whisper_or_unavailable_spec p c m1 H1).
    destruct (whisper_model state) as [wm|].
    * destruct (fallback_answer_shape (wm c)) as [(resp & ->)|(d & ->)];
        cbn [transcribe_handler raise]; rewrite Hfs; unfold m1;
        cbn [trace temp_path]; norm_trace.
    * cbn [transcribe_handler raise]. rewrite Hfs. unfold m1.
      cbn [trace temp_path]. norm_trace.
Qed.

(** How the persisting of an upload can go. *)
Lemma upload_cases audio :
  (exists e, temp_create_error G (upload_suffix G audio) = Some e) \/
  (temp_created G audio /\
   ((exists e, upload_read audio = inl (ReadFailed e)) \/
    upload_read audio = inl ReadCancelled \/
    (exists c,
       upload_read audio = inr c /\
       ((exists e written,
           temp_write_error G (upload_path G audio) c = Some (e, written)) \/
        temp_written G audio c)))).
Proof.
  unfold temp_created, temp_written.
  destruct (temp_create_error G (upload_suffix G audio)) as [e|]; [eauto|].
  right. split; [reflexivity|].
  destruct (upload_read audio) as [[e|]|c]; [eauto|auto|].
  right. right. exists c. split; [reflexivity|].
  destruct (temp_write_error G (upload_path G audio) c) as [[e w]|]; eauto.
Qed.

(** An answered call has persisted its upload. *)
Lemma transcribe_audio_answered audio m m' resp :
  transcribe_audio G state audio m = (m', inr resp) ->
  no_stt_installed G state = false /\
  temp_created G audio /\
  exists c, upload_read audio = inr c /\ temp_written G audio c.
Proof.
  intros H.
  destruct (no_stt_installed G state) eqn:Hg.
  { rewrite (transcribe_audio_not_installed audio m Hg) in H. discriminate. }
  split; [reflexivity|].
  destruct (upload_cases audio)
    as [(e & He)|(Ht & [(e & He)|[He|(c & Hc & [(e & w & Hw)|Hw])]])].
  - rewrite (transcribe_audio_create_error audio e m Hg He) in H.
    discriminate.
  - rewrite (transcribe_audio_read_error audio e m Hg Ht He) in H.
    discriminate.
  - rewrite (transcribe_audio_read_cancelled audio m Hg Ht He) in H.
    discriminate.
  - rewrite (transcribe_audio_write_error audio c e w m Hg Ht Hc Hw) in H.
    discriminate.
  - split; [exact Ht|]. eauto.
Qed.
End TranscribeLemmas.

(** * The transcription claims *)

(** When the upload is persisted, every path through the chain creates the
    temporary file once and removes it once, last of all. *)
Lemma transcribe_audio_removes_temp_file
    (G : Globals) (state : ServerState) (audio : UploadFile) (c : bytes)
    (m : machine) :
  no_stt_installed G state = false ->
  temp_created G audio ->
  upload_read audio = inr c ->
  temp_written G audio c ->
  let p := upload_path G audio in
  let m' := fst (transcribe_audio G state audio m) in
  fs m' = delete p (fs m) /\
  exists mid,
    trace m' = trace m ++ persisted p c ++ mid ++ [EvUnlink p] /\
    Forall (fun ev => ~ temp_file_event ev) mid.
Proof.
  intros Hg Htc Hc Htw p m'. unfold m'.
  rewrite (transcribe_audio_read_ok G state audio c m Hg Htc Hc Htw). fold p.
  destruct (primary_slot state) as [[proc mdl]|].
  - destruct (primary_outcome proc mdl c) as [e|t].
    + destruct (whisper_model state) as [wm|];
        cbn [fst fs trace]; (split; [reflexivity|]).
      * exists [EvPrimaryRun p c; EvWhisperRun p c]. split; [reflexivity|].
        repeat constructor; auto.
      * exists [EvPrimaryRun p c]. split; [reflexivity|].
        repeat constructor; auto.
    + cbn [fst fs trace]. split; [reflexivity|].
      exists ([EvPrimaryRun p c] ++ detect_events G t).
      split; [rewrite <- app_assoc; reflexivity|].
      unfold detect_events. destruct (LANGDETECT_AVAILABLE G);
        repeat constructor; auto.
  - destruct (whisper_model state) as [wm|];
      cbn [fst fs trace]; (split; [reflexivity|]).
    + exists [EvWhisperRun p c]. split; [reflexivity|].
      repeat constructor; auto.
    + exists []. split; [reflexivity|]. constructor.
Qed.

(** C1, at the input on which the code breaks it.  When the temporary
    file is created and the upload then cannot be read, the call ends, with
    status 500, without removing the file: it is still there, empty, and
    the only events of the call are its creation and the failed read. *)
Theorem transcribe_audio_leaks_on_read_error
    (G : Globals) (state : ServerState) (audio : UploadFile) (e : pyerr)
    (m : machine) :
  no_stt_installed G state = false ->
  temp_created G audio ->
  upload_read audio = inl (ReadFailed e) ->
  let p := upload_path G audio in
  let m' := fst (transcribe_audio G state audio m) in
  fs m' !! p = Some [] /\
  trace m' = trace m ++ [EvTempCreate p; EvUploadRead] /\
  status_of (snd (transcribe_audio G state audio m)) = Some 500%Z.
Proof.
  intros Hg Htc He p m'. unfold m'.
  rewrite (transcribe_audio_read_error G state audio e m Hg Htc He).
  cbn [fst snd fs trace]. split; [apply lookup_insert_eq|]. split; reflexivity.
Qed.

Lemma transcribe_audio_leaks_on_read_error_witness :
  no_stt_installed (ex_globals true)
    (ex_state (-1 # 10) (Some ex_whisper) (Some ex_processor) (Some ex_indic) true)
  = false /\
  temp_created (ex_globals true) ex_upload_unreadable /\
  upload_read ex_upload_unreadable
  = inl (ReadFailed (RuntimeError "client disconnected")) /\
  fs (fst (transcribe_audio (ex_globals true)
             (ex_state (-1 # 10) (Some ex_whisper) (Some ex_processor)
                (Some ex_indic) true)
             ex_upload_unreadable ex_machine)) !! ex_temp
  = Some [].
Proof.
  split; [reflexivity|]. split; [reflexivity|]. split; [reflexivity|].
  exact (proj1 (transcribe_audio_leaks_on_read_error (ex_globals true)
                  (ex_state (-1 # 10) (Some ex_whisper) (Some ex_processor)
                     (Some ex_indic) true)
                  ex_upload_unreadable (RuntimeError "client disconnected")
                  ex_machine eq_refl eq_refl eq_refl)).
Defined.

(** C2, as amended.  While the readiness flag is false, [retrieve] fails
    at once with status 503 and leaves the machine as it found it: no step
    of its pipeline has run.  [transcribe_audio] does not read the flag: it
    does the same, whatever the flag is. *)
Theorem not_ready_behaviour
    (G : Globals) (state : ServerState) (request : RetrievalRequest.t)
    (audio : UploadFile) (m : machine) :
  ready state = false ->
  retrieve G state request m
  = (m, inl (HTTPException 503 "Service not ready")) /\
  forall b,
    transcribe_audio G (with_ready b state) audio m
    = transcribe_audio G state audio m.
Proof.
  intros Hr. split.
  - unfold retrieve. rewrite Hr. reflexivity.
  - intros b. reflexivity.
Qed.

Lemma not_ready_behaviour_witness :
  ready (ex_state (-1 # 10) None None None false) = false /\
  retrieve (ex_globals true) (ex_state (-1 # 10) None None None false)
    (ex_request None) ex_machine
  = (ex_machine, inl (HTTPException 503 "Service not ready")).
Proof.
  split; [reflexivity|].
  exact (proj1 (not_ready_behaviour (ex_globals true)
                  (ex_state (-1 # 10) None None None false)
                  (ex_request None) ex_upload ex_machine eq_refl)).
Defined.

(** C2 as stated fails for [transcribe_audio]: in the state the module starts
    with, the readiness flag false and nothing loaded, a transcription
    request is not answered 503; the upload is read and persisted, the file
    removed, and the answer is 501. *)
Lemma transcribe_audio_not_gated_by_readiness :
  ready ServerState_init = false /\
  transcribe_audio (ex_globals true) ServerState_init ex_upload ex_machine
  = (ex_machine_unavailable,
     inl (HTTPException 501 "No STT model available")) /\
  status_of (snd (transcribe_audio (ex_globals true) ServerState_init
                    ex_upload ex_machine))
  <> Some 503%Z.
Proof.
  split; [reflexivity|]. split; [vm_compute; reflexivity|].
  vm_compute. discriminate.
Qed.









Lemma fold_left_Qplus (xs : list Q) (a : Q) :
  fold_left Qplus xs a == a + fold_right Qplus 0 xs.
Proof.
  revert a. induction xs as [|x xs IH]; intros a; simpl.
  - ring.
  - rewrite IH. ring.
Qed.

(** Lines 541-542 compute one minus the mean. *)
Lemma avg_confidence_mean (segs : list WhisperResult.seg) :
  segs <> [] ->
  avg_confidence segs == 1 - mean (map seg_no_speech_prob segs).
Proof.
  intros Hne. unfold avg_confidence, mean, py_sum.
  destruct segs as [|s segs]; [contradiction|].
  rewrite fold_left_Qplus, Qplus_0_l. reflexivity.
Qed.

Lemma segment_dicts_inr (segs : list WhisperResult.seg) :
  forall ds, segment_dicts segs = inr ds -> Forall2 segment_of segs ds.
Proof.
  induction segs as [|s segs IH]; simpl; intros ds H.
  - injection H as <-. constructor.
  - destruct (segment_dict s) as [e|d] eqn:Hd; [discriminate|].
    destruct (segment_dicts segs) as [e|ds'] eqn:Hds; [discriminate|].
    injection H as <-. constructor; [|apply IH; reflexivity].
    unfold segment_dict, subscript in Hd.
    unfold segment_of.
    destruct (WhisperResult.start s) as [st|]; [|discriminate].
    destruct (WhisperResult.end_ s) as [en|]; [|discriminate].
    destruct (WhisperResult.text s) as [tx|]; [|discriminate].
    injection Hd as <-. cbn.
    split; [reflexivity|]. split; [reflexivity|]. exists tx. auto.
Qed.

(** A response of the Whisper block, read back. *)
Lemma fallback_answer_inr (r : pyerr + WhisperResult.t)
    (resp : TranscriptionResponse.t) :
  fallback_answer r = inr resp ->
  exists result,
    r = inr result /\
    TranscriptionResponse.confidence resp
    = Some (avg_confidence (result_get_segments result)) /\
    Forall2 segment_of (result_get_segments result)
      (TranscriptionResponse.segments resp) /\
    exists tx,
      WhisperResult.result_text result = Some tx /\
      TranscriptionResponse.text resp = strip tx.
Proof.
  unfold fallback_answer. destruct r as [e|result]; [discriminate|].
  unfold whisper_response, subscript.
  destruct (WhisperResult.result_text result) as [tx|] eqn:Htx;
    [|discriminate].
  destruct (segment_dicts (result_get_segments result)) as [e|ds] eqn:Hds;
    [discriminate|].
  intros [= <-]. exists result. cbn.
  split; [reflexivity|]. split; [reflexivity|].
  split; [apply segment_dicts_inr, Hds|]. exists tx. auto.
Qed.

(** C9.  A successful transcription by the primary model carries the
    confidence 0.85 and no segments.  A successful transcription by the
    fallback model (the primary being absent or having raised) carries a
    confidence equal to 0.8 when Whisper reports no segments and to one
    minus the mean of the segments' [no_speech_prob] otherwise (a segment
    without that key counting for 0), and one segment dict per native
    segment, in order, with its start, its end and its stripped text. *)
Theorem transcription_confidence_and_segments
    (G : Globals) (state : ServerState) (audio : UploadFile) (c : bytes)
    (m m' : machine) (resp : TranscriptionResponse.t) :
  upload_read audio = inr c ->
  transcribe_audio G state audio m = (m', inr resp) ->
  (forall proc mdl t,
     primary_slot state = Some (proc, mdl) ->
     primary_outcome proc mdl c = inr t ->
     TranscriptionResponse.confidence resp = Some (85 # 100) /\
     TranscriptionResponse.segments resp = [] /\
     TranscriptionResponse.text resp = strip t) /\
  (primary_gives_nothing state c ->
   exists wm result conf,
     whisper_model state = Some wm /\
     wm c = inr result /\
     TranscriptionResponse.confidence resp = Some conf /\
     conf == match result_get_segments result with
             | [] => 8 # 10
             | segs => 1 - mean (map seg_no_speech_prob segs)
             end /\
     Forall2 segment_of (result_get_segments result)
       (TranscriptionResponse.segments resp)).
Proof.
  intros Hc H.
  destruct (transcribe_audio_answered G state audio m m' resp H)
    as (Hg & Htc & c' & Hc' & Htw).
  assert (c' = c) by congruence. subst c'.
  rewrite (transcribe_audio_read_ok G state audio c m Hg Htc Hc Htw) in H.
  cbv zeta in H. unfold primary_gives_nothing. split.
  - intros proc mdl t Hs Ht. rewrite Hs, Ht in H. injection H as _ <-.
    repeat split; reflexivity.
  - intros Hn.
    assert (Hw : exists wm, whisper_model state = Some wm /\
                            fallback_answer (wm c) = inr resp).
    { destruct (primary_slot state) as [[proc mdl]|].
      - destruct Hn as (e & He). rewrite He in H.
        destruct (whisper_model state) as [wm|]; [|discriminate].
        injection H as _ H. eauto.
      - destruct (whisper_model state) as [wm|]; [|discriminate].
        injection H as _ H. eauto. }
    destruct Hw as (wm & Hw & Ha).
    apply fallback_answer_inr in Ha as (result & Hr & Hconf & Hsegs & _).
    exists wm, result, (avg_confidence (result_get_segments result)).
    repeat split; try assumption.
    destruct (result_get_segments result) as [|s segs] eqn:Hsg.
    + reflexivity.
    + apply avg_confidence_mean. discriminate.
Qed.

Lemma transcription_confidence_and_segments_witness :
  transcribe_audio (ex_globals true)
    (ex_state (-1 # 10) (Some ex_whisper) (Some ex_processor)
       (Some ex_indic_failing) true)
    ex_upload ex_machine
  = (ex_machine_transcribed, inr ex_transcription) /\
  primary_gives_nothing
    (ex_state (-1 # 10) (Some ex_whisper) (Some ex_processor)
       (Some ex_indic_failing) true)
    ex_audio /\
  exists conf,
    TranscriptionResponse.confidence ex_transcription = Some conf /\
    conf == 1 - mean [1 # 10; 3 # 10].
Proof.
  assert (H : transcribe_audio (ex_globals true)
                (ex_state (-1 # 10) (Some ex_whisper) (Some ex_processor)
                   (Some ex_indic_failing) true)
                ex_upload ex_machine
              = (ex_machine_transcribed, inr ex_transcription)).
  { vm_compute. reflexivity. }
  assert (Hn : primary_gives_nothing
                 (ex_state (-1 # 10) (Some ex_whisper) (Some ex_processor)
                    (Some ex_indic_failing) true)
                 ex_audio).
  { exists (RuntimeError "CUDA out of memory"). reflexivity. }
  split; [exact H|]. split; [exact Hn|].
  destruct (proj2 (transcription_confidence_and_segments (ex_globals true)
                     (ex_state (-1 # 10) (Some ex_whisper) (Some ex_processor)
                        (Some ex_indic_failing) true)
                     ex_upload ex_audio ex_machine ex_machine_transcribed
                     ex_transcription eq_refl H) Hn)
    as (wm & result & conf & Hw & Hr & Hc & Hq & _).
  exists conf. split; [exact Hc|].
  cbn in Hw. injection Hw as <-. injection Hr as <-. exact Hq.
Defined.

(** * Further properties of [retrieve] *)

Ltac front_cases G state :=
  destruct (LANGDETECT_AVAILABLE G) eqn:?; run_goal;
  repeat (match goal with
          | |- context [match model state with _ => _ end] =>
              destruct (model state) eqn:?
          | |- context [match index state with _ => _ end] =>
              destruct (index state) eqn:?
          | |- context [match ?f ?a ?b with inl _ => _ | inr _ => _ end] =>
              destruct (f a b) as [[]|] eqn:?
          | |- context [match ?f ?a ?b with inl _ => _ | inr _ => _ end] =>
              destruct (f a b) eqn:?
          | |- context [match ?f ?a with inl _ => _ | inr _ => _ end] =>
              destruct (f a) eqn:?
          end; run_goal).

Section RetrieveMore.
Variable G : Globals.
Variable state : ServerState.

(** The stages before the loop leave the file system and the frame alone,
    and hand the loop the rows of the search. *)
Lemma retrieve_front_machine query k m :
  fs (fst (retrieve_front G state query k m)) = fs m /\
  temp_path (fst (retrieve_front G state query k m)) = temp_path m.
Proof.
  unfold retrieve_front, detect_query_language, encode, search. run_goal.
  front_cases G state; auto.
Qed.

Lemma retrieve_front_inr request m m1 dl di :
  retrieve_front G state (RetrievalRequest.query request)
    (RetrievalRequest.k request) m = (m1, inr (dl, di)) ->
  search_rows G state request = Some di.
Proof.
  unfold retrieve_front, detect_query_language, encode, search, search_rows.
  run_goal. front_cases G state; try discriminate; intros [= _ _ <-]; congruence.
Qed.

(** An answered retrieval, taken apart. *)
Lemma retrieve_inr_response request m m' resp :
  retrieve G state request m = (m', inr resp) ->
  exists dl di m1,
    retrieve_front G state (RetrievalRequest.query request)
      (RetrievalRequest.k request) m = (m1, inr (dl, di)) /\
    build_results state (RetrievalRequest.threshold request)
      (zip (fst di) (snd di)) [] m1
    = (m', inr (RetrievalResponse.results resp)) /\
    resp = RetrievalResponse.mk (RetrievalRequest.query request)
             (RetrievalResponse.results resp)
             (Z.of_nat (length (RetrievalResponse.results resp)))
             dl (elapsed_ms G).
Proof.
  rewrite retrieve_unfold. destruct (ready state); [|discriminate]. simpl.
  destruct (retrieve_front _ _ _ _ m) as [m1 [e|[dl di]]]; [discriminate|].
  destruct (build_results _ _ _ _ m1) as [m2 [e|rs]] eqn:Hb; [discriminate|].
  intros [= <- <-]. exists dl, di, m1. simpl. auto.
Qed.

Lemma survives_no_sentinel threshold (rows : list (Q * Z)) :
  (length (List.filter (survives threshold) rows)
   <= length (List.filter no_sentinel rows))%nat.
Proof.
  induction rows as [|e rows IH]; simpl; [lia|].
  unfold survives at 1, no_sentinel at 1.
  destruct (snd e =? -1)%Z; simpl; [exact IH|].
  destruct (below_threshold threshold (fst e)); simpl; lia.
Qed.

Lemma filter_length_bound {A : Type} (f : A -> bool) (l : list A) :
  (length (List.filter f l) <= length l)%nat.
Proof.
  induction l as [|a l IH]; simpl; [lia|]. destruct (f a); simpl; lia.
Qed.
End RetrieveMore.

(** X1.  An answered retrieval reports as [num_results] the length of its
    result list, which is at most the number of non-sentinel entries of the
    index rows; when the index returns at most [k] neighbours, as FAISS
    does, [num_results] is at most [k]. *)
Theorem retrieve_result_count
    (G : Globals) (state : ServerState) (request : RetrievalRequest.t)
    (m m' : machine) (resp : RetrievalResponse.t) :
  retrieve G state request m = (m', inr resp) ->
  exists di,
    search_rows G state request = Some di /\
    RetrievalResponse.num_results resp
    = Z.of_nat (length (RetrievalResponse.results resp)) /\
    (length (RetrievalResponse.results resp)
     <= length (List.filter no_sentinel (zip (fst di) (snd di))))%nat /\
    ((Z.of_nat (length (fst di)) <= RetrievalRequest.k request)%Z ->
     (RetrievalResponse.num_results resp <= RetrievalRequest.k request)%Z).
Proof.
  intros H.
  apply retrieve_inr_response in H as (dl & di & m1 & Hf & Hb & Hresp).
  exists di. split; [eapply retrieve_front_inr; exact Hf|].
  assert (Hn : RetrievalResponse.num_results resp
               = Z.of_nat (length (RetrievalResponse.results resp))).
  { rewrite Hresp at 1. reflexivity. }
  apply build_results_inr in Hb as (new & Hnew & HF & _). simpl in Hnew.
  apply Forall2_length in HF. rewrite <- Hnew in HF.
  assert (Hle : (length (RetrievalResponse.results resp)
                 <= length (List.filter no_sentinel
                              (zip (fst di) (snd di))))%nat).
  { rewrite <- HF. apply survives_no_sentinel. }
  split; [exact Hn|]. split; [exact Hle|].
  intros Hk. rewrite Hn.
  pose proof (filter_length_bound no_sentinel (zip (fst di) (snd di))) as H1.
  assert (H2 : (length (zip (fst di) (snd di)) <= length (fst di))%nat).
  { rewrite <- (length_map fst), fst_zip_take, length_take. lia. }
  lia.
Qed.

Lemma retrieve_result_count_witness :
  retrieve (ex_globals true) (ex_state (-1 # 10) None None None true)
    (ex_request None) ex_machine
  = (ex_machine_retrieved, inr (ex_response (-1 # 10))) /\
  (RetrievalResponse.num_results (ex_response (-1 # 10)) <= 5)%Z.
Proof.
  assert (H : retrieve (ex_globals true) (ex_state (-1 # 10) None None None true)
                (ex_request None) ex_machine
              = (ex_machine_retrieved, inr (ex_response (-1 # 10)))).
  { vm_compute. reflexivity. }
  split; [exact H|].
  destruct (retrieve_result_count _ _ _ _ _ _ H) as (di & Hs & _ & _ & Hk).
  apply Hk. vm_compute in Hs. injection Hs as <-. simpl. lia.
Defined.

(** X2.  When the embedding model raises, the request fails with that
    exception (status 500); the index is not searched and the chunk array
    is not consulted. *)
Theorem retrieve_embedding_failure
    (G : Globals) (state : ServerState) (request : RetrievalRequest.t)
    (m : machine) (enc : Encoder) (e : pyerr) :
  ready state = true ->
  detection_harmless G (RetrievalRequest.query request) ->
  model state = Some enc ->
  enc (RetrievalRequest.query request) = inl e ->
  snd (retrieve G state request m) = inl (Err e) /\
  status_of (snd (retrieve G state request m)) = Some 500%Z /\
  exists tr,
    trace (fst (retrieve G state request m)) = trace m ++ tr /\
    Forall before_search tr.
Proof.
  intros Hr Hd Hm He.
  unfold retrieve, detect_query_language, encode. rewrite Hr, Hm.
  cbn [negb]. run_goal. rewrite He.
  destruct Hd as [Hd|[(lang & Hd)|(msg & Hd)]]; rewrite ?Hd; run_goal.
  - split; [reflexivity|]. split; [reflexivity|].
    exists [EvEncode (RetrievalRequest.query request)].
    split; [reflexivity|]. repeat constructor.
  - destruct (LANGDETECT_AVAILABLE G); run_goal; rewrite ?Hd; run_goal;
      (split; [reflexivity|]); (split; [reflexivity|]);
      eexists; (split; [rewrite <- ?app_assoc; reflexivity|]);
      repeat constructor.
  - destruct (LANGDETECT_AVAILABLE G); run_goal; rewrite ?Hd; run_goal;
      (split; [reflexivity|]); (split; [reflexivity|]);
      eexists; (split; [rewrite <- ?app_assoc; reflexivity|]);
      repeat constructor.
Qed.

Lemma retrieve_embedding_failure_witness :
  detection_harmless (ex_globals true)
    (RetrievalRequest.query (ex_request None)) /\
  snd (retrieve (ex_globals true) ex_state_unembeddable (ex_request None)
         ex_machine)
  = inl (Err (RuntimeError "CUDA out of memory")).
Proof.
  assert (Hd : detection_harmless (ex_globals true)
                 (RetrievalRequest.query (ex_request None))).
  { right. left. exists "en". reflexivity. }
  split; [exact Hd|].
  exact (proj1 (retrieve_embedding_failure (ex_globals true)
                  ex_state_unembeddable (ex_request None) ex_machine
                  ex_encoder_failing (RuntimeError "CUDA out of memory")
                  eq_refl Hd eq_refl eq_refl)).
Defined.

Lemma retrieve_front_without_detect
    (G : Globals) (state : ServerState) (query : string) (k : Z)
    (m : machine) :
  detection_harmless G query ->
  match snd (retrieve_front G state query k m),
        snd (retrieve_front (without_langdetect G) state query k m) with
  | inr (_, di1), inr (_, di2) => di1 = di2
  | inl e1, inl e2 => e1 = e2
  | _, _ => False
  end.
Proof.
  intros Hd. unfold retrieve_front, detect_query_language, encode, search.
  cbn [without_langdetect LANGDETECT_AVAILABLE normalize_L2]. run_goal.
  destruct Hd as [Hd|[(lang & Hd)|(msg & Hd)]]; rewrite ?Hd;
    destruct (LANGDETECT_AVAILABLE G); try discriminate; run_goal;
    rewrite ?Hd; run_goal;
    (destruct (model state) as [enc|]; run_goal; [|reflexivity]);
    (destruct (enc query) as [e|v]; run_goal; [reflexivity|]);
    (destruct (index state) as [ix|]; run_goal; [|reflexivity]);
    (destruct (ix (normalize_L2 G v) k) as [e|di]; run_goal; reflexivity).
Qed.

(** X3.  Language detection is diagnostic only: as long as the detector
    answers or raises its own [LangDetectException], a retrieval fails with
    the same exception, or is answered with the same results, as it would
    without the detector. *)
Theorem retrieve_detection_irrelevant
    (G : Globals) (state : ServerState) (request : RetrievalRequest.t)
    (m : machine) :
  detection_harmless G (RetrievalRequest.query request) ->
  match snd (retrieve G state request m),
        snd (retrieve (without_langdetect G) state request m) with
  | inr r1, inr r2 =>
      RetrievalResponse.results r1 = RetrievalResponse.results r2 /\
      RetrievalResponse.num_results r1 = RetrievalResponse.num_results r2
  | inl e1, inl e2 => e1 = e2
  | _, _ => False
  end.
Proof.
  intros Hd. rewrite !retrieve_unfold.
  destruct (ready state); [|reflexivity]. cbn [negb].
  pose proof (retrieve_front_without_detect G state
                (RetrievalRequest.query request) (RetrievalRequest.k request)
                m Hd) as Hf.
  destruct (retrieve_front G state _ _ m) as [m1 [e1|[dl1 di1]]];
    destruct (retrieve_front (without_langdetect G) state _ _ m)
      as [m2 [e2|[dl2 di2]]];
    cbn [snd] in Hf; try contradiction; [cbn [snd]; exact Hf|].
  subst di2.
  pose proof (build_results_answer state (RetrievalRequest.threshold request)
                (zip (fst di1) (snd di1)) [] m1 m2) as Ha.
  destruct (build_results _ _ _ _ m1) as [m1' [e1|rs1]];
    destruct (build_results _ _ _ _ m2) as [m2' [e2|rs2]];
    cbn [snd] in *; try discriminate; injection Ha as <-; auto.
Qed.

Lemma retrieve_detection_irrelevant_witness :
  detection_harmless (ex_globals true)
    (RetrievalRequest.query (ex_request None)) /\
  match snd (retrieve (ex_globals true)
               (ex_state (-1 # 10) None None None true) (ex_request None)
               ex_machine),
        snd (retrieve (without_langdetect (ex_globals true))
               (ex_state (-1 # 10) None None None true) (ex_request None)
               ex_machine) with
  | inr r1, inr r2 =>
      RetrievalResponse.results r1 = RetrievalResponse.results r2 /\
      RetrievalResponse.num_results r1 = RetrievalResponse.num_results r2
  | inl e1, inl e2 => e1 = e2
  | _, _ => False
  end.
Proof.
  assert (Hd : detection_harmless (ex_globals true)
                 (RetrievalRequest.query (ex_request None))).
  { right. left. exists "en". reflexivity. }
  split; [exact Hd|].
  exact (retrieve_detection_irrelevant (ex_globals true)
           (ex_state (-1 # 10) None None None true) (ex_request None)
           ex_machine Hd).
Defined.

(** X4.  [retrieve] swallows a [LangDetectException] only: any other
    exception of the detector aborts the request with that exception
    (status 500), before the query is embedded. *)
Theorem retrieve_detector_crash
    (G : Globals) (state : ServerState) (request : RetrievalRequest.t)
    (m : machine) (e : pyerr) :
  ready state = true ->
  LANGDETECT_AVAILABLE G = true ->
  detect G (RetrievalRequest.query request) = inl e ->
  (forall msg, e <> LangDetectException msg) ->
  retrieve G state request m
  = (Machine (fs m) (trace m ++ [EvDetect (RetrievalRequest.query request)])
       (temp_path m),
     inl (Err e)).
Proof.
  intros Hr Hl Hd Hne. unfold retrieve, detect_query_language.
  rewrite Hr, Hl. cbn [negb]. run_goal. rewrite Hd.
  destruct e; try reflexivity. exfalso. eapply Hne. reflexivity.
Qed.

Lemma retrieve_detector_crash_witness :
  detect ex_globals_detector_broken (RetrievalRequest.query (ex_request None))
  = inl (TypeError "expected str") /\
  status_of (snd (retrieve ex_globals_detector_broken
                    (ex_state (-1 # 10) None None None true)
                    (ex_request None) ex_machine))
  = Some 500%Z.
Proof.
  split; [reflexivity|].
  rewrite (retrieve_detector_crash ex_globals_detector_broken
             (ex_state (-1 # 10) None None None true) (ex_request None)
             ex_machine (TypeError "expected str") eq_refl eq_refl eq_refl).
  - reflexivity.
  - intros msg. discriminate.
Defined.

Lemma py_getitem_invalid {A : Type} (l : list A) (i : Z) :
  ~ valid_index (length l) i ->
  py_getitem l i = inl (IndexError "list index out of range").
Proof.
  unfold valid_index, py_getitem. intros Hi.
  destruct (i <? 0)%Z eqn:Hneg.
  - apply Z.ltb_lt in Hneg.
    destruct ((i + Z.of_nat (length l) <? 0)%Z
              || (Z.of_nat (length l) <=? i + Z.of_nat (length l))%Z) eqn:Ho;
      [reflexivity|].
    apply orb_false_iff in Ho as [Ho _]. apply Z.ltb_ge in Ho. lia.
  - apply Z.ltb_ge in Hneg.
    destruct ((i <? 0)%Z || (Z.of_nat (length l) <=? i)%Z) eqn:Ho;
      [reflexivity|].
    apply orb_false_iff in Ho as [_ Ho]. apply Z.leb_gt in Ho. lia.
Qed.

Lemma py_getitem_error {A : Type} (l : list A) (i : Z) (e : pyerr) :
  py_getitem l i = inl e -> e = IndexError "list index out of range".
Proof.
  unfold py_getitem.
  destruct (_ || _); [intros [= <-]; reflexivity|].
  destruct (l !! _); [discriminate|intros [= <-]; reflexivity].
Qed.

(** A row entry that is no sentinel and no position of the chunk array
    makes the loop raise [IndexError], wherever it stands in the row and
    whatever its score. *)
Lemma build_results_stale state cs threshold rows :
  metadata_chunks state = inr cs ->
  Exists (fun e => snd e <> (-1)%Z /\ ~ valid_index (length cs) (snd e)) rows ->
  forall acc m,
    snd (build_results state threshold rows acc m)
    = inl (Err (IndexError "list index out of range")).
Proof.
  intros Hcs Hex.
  induction rows as [|[distance chunk_idx] rest IH]; intros acc m.
  - inversion Hex.
  - simpl. destruct (chunk_idx =? -1)%Z eqn:Hs.
    + apply Z.eqb_eq in Hs. apply IH.
      inversion Hex as [? ? [Hne _]|]; subst; [contradiction|assumption].
    + run_goal. rewrite Hcs. run_goal.
      destruct (py_getitem cs chunk_idx) as [e|c] eqn:Hc; run_goal.
      * apply py_getitem_error in Hc. subst e. reflexivity.
      * assert (Hrest : Exists (fun e => snd e <> (-1)%Z /\
                                  ~ valid_index (length cs) (snd e)) rest).
        { inversion Hex as [? ? [_ Hbad]|]; subst; [|assumption].
          simpl in Hbad. rewrite (py_getitem_invalid _ _ Hbad) in Hc.
          discriminate. }
        destruct (below_threshold threshold distance); apply IH, Hrest.
Qed.

(** X5.  Metadata shorter than the index is not tolerated: when the search
    returns a neighbour that is no sentinel and no position of the chunk
    array, the whole request fails with [IndexError] (status 500), even if
    that neighbour scores below the threshold. *)
Theorem retrieve_stale_metadata
    (G : Globals) (state : ServerState) (request : RetrievalRequest.t)
    (m : machine) (di : list Q * list Z) (cs : list ChunkData.t) :
  ready state = true ->
  detection_harmless G (RetrievalRequest.query request) ->
  search_rows G state request = Some di ->
  metadata_chunks state = inr cs ->
  Exists (fun e => snd e <> (-1)%Z /\ ~ valid_index (length cs) (snd e))
    (zip (fst di) (snd di)) ->
  snd (retrieve G state request m)
  = inl (Err (IndexError "list index out of range")).
Proof.
  intros Hr Hd Hs Hcs Hex. rewrite retrieve_unfold, Hr. cbn [negb].
  destruct (retrieve_front G state _ _ m) as [m1 [e|[dl di']]] eqn:Hf.
  - exfalso. revert Hf Hs.
    unfold retrieve_front, detect_query_language, encode, search, search_rows.
    run_goal.
    destruct Hd as [Hd|[(lang & Hd)|(msg & Hd)]]; rewrite ?Hd;
      destruct (LANGDETECT_AVAILABLE G); try discriminate; run_goal;
      rewrite ?Hd; run_goal;
      (destruct (model state) as [enc|]; run_goal;
       [|intros Hf0 Hs0; discriminate Hs0]);
      (destruct (enc _) as [e0|v]; run_goal;
       [intros Hf0 Hs0; destruct (index state); discriminate Hs0|]);
      (destruct (index state) as [ix|]; run_goal;
       [|intros Hf0 Hs0; discriminate Hs0]);
      (destruct (ix _ _) as [e0|di0]; run_goal;
       intros Hf0 Hs0; first [discriminate Hs0 | discriminate Hf0]).
  - apply retrieve_front_inr with (request := request) in Hf.
    rewrite Hs in Hf. injection Hf as <-.
    pose proof (build_results_stale state cs
                  (RetrievalRequest.threshold request) _ Hcs Hex [] m1) as Hb.
    destruct (build_results _ _ _ _ m1) as [m2 [e|rs]]; simpl in Hb;
      [|discriminate].
    injection Hb as ->. reflexivity.
Qed.

Lemma retrieve_stale_metadata_witness :
  search_rows (ex_globals true) ex_state_stale (ex_request (Some (3 # 4)))
  = Some ([9 # 10; 1 # 2; 1 # 4], [2; 7; 1]%Z) /\
  status_of (snd (retrieve (ex_globals true) ex_state_stale
                    (ex_request (Some (3 # 4))) ex_machine))
  = Some 500%Z.
Proof.
  split; [reflexivity|].
  rewrite (retrieve_stale_metadata (ex_globals true) ex_state_stale
             (ex_request (Some (3 # 4))) ex_machine
             ([9 # 10; 1 # 2; 1 # 4], [2; 7; 1]%Z) (chunks ex_metadata)).
  - reflexivity.
  - reflexivity.
  - right. left. exists "en". reflexivity.
  - reflexivity.
  - reflexivity.
  - right. left. simpl. split; [discriminate|].
    unfold valid_index. simpl. lia.
Defined.

Section RetrieveThresholds.
Variable G : Globals.
Variable state : ServerState.

(** An answered retrieval with a threshold is answered without one. *)
Lemma retrieve_drop_threshold query k lang_hint t m m' resp :
  retrieve G state (RetrievalRequest.mk query k lang_hint (Some t)) m
  = (m', inr resp) ->
  exists resp0,
    retrieve G state (RetrievalRequest.mk query k lang_hint None) m
    = (m', inr resp0) /\
    RetrievalResponse.results resp
    = List.filter (meets t) (RetrievalResponse.results resp0).
Proof.
  rewrite !retrieve_unfold. simpl.
  destruct (ready state); [|discriminate]. simpl.
  destruct (retrieve_front G state query k m) as [m1 [e|[dl di]]];
    [discriminate|].
  pose proof (build_results_threshold state t (zip (fst di) (snd di))
                [] [] m1) as Hsim.
  destruct (build_results state None _ _ m1) as [m0 [e0|rs0]];
    destruct (build_results state (Some t) _ _ m1) as [m3 [e1|rs1]];
    try discriminate; try contradiction.
  destruct Hsim as (-> & new0 & -> & ->). simpl.
  intros [= <- <-]. simpl. eexists. split; reflexivity.
Qed.

Lemma filter_meets_weaker t1 t2 (rs : list DocumentResult.t) :
  t1 <= t2 ->
  List.filter (meets t2) (List.filter (meets t1) rs)
  = List.filter (meets t2) rs.
Proof.
  intros Ht. induction rs as [|r rs IH]; simpl; [reflexivity|].
  destruct (meets t1 r) eqn:H1; simpl; [rewrite IH; reflexivity|].
  destruct (meets t2 r) eqn:H2; [|exact IH].
  exfalso. unfold meets in *.
  apply negb_true_iff, Qlt_bool_false_iff in H2.
  apply negb_false_iff, Qlt_bool_true_iff in H1.
  apply (Qlt_irrefl t1). eapply Qle_lt_trans; [|exact H1].
  eapply Qle_trans; eassumption.
Qed.

(** The stages before the loop succeed when detection is harmless and
    embedding and search answer. *)
Lemma retrieve_front_ok request m di :
  detection_harmless G (RetrievalRequest.query request) ->
  search_rows G state request = Some di ->
  exists m1 dl,
    retrieve_front G state (RetrievalRequest.query request)
      (RetrievalRequest.k request) m = (m1, inr (dl, di)).
Proof.
  intros Hd Hs. revert Hs.
  unfold retrieve_front, detect_query_language, encode, search, search_rows.
  run_goal.
  destruct (model state) as [enc|]; [|discriminate].
  destruct (index state) as [ix|]; [|discriminate].
  destruct (enc _) as [e0|v]; [discriminate|].
  destruct (ix _ _) as [e0|di0]; [discriminate|].
  intros [= ->].
  destruct Hd as [Hd|[(lang & Hd)|(msg & Hd)]]; rewrite ?Hd;
    destruct (LANGDETECT_AVAILABLE G); try discriminate; run_goal;
    rewrite ?Hd; run_goal; eauto.
Qed.
End RetrieveThresholds.

(** X6.  Raising the threshold only removes results: with [t1 <= t2], the
    retrieval with threshold [t2] is answered with those results of the
    retrieval with threshold [t1] whose score is at least [t2], in the same
    order. *)
Theorem retrieve_threshold_monotone
    (G : Globals) (state : ServerState) (query : string) (k : Z)
    (lang_hint : option string) (t1 t2 : Q) (m m' : machine)
    (r1 : RetrievalResponse.t) :
  t1 <= t2 ->
  retrieve G state (RetrievalRequest.mk query k lang_hint (Some t1)) m
  = (m', inr r1) ->
  exists r2,
    retrieve G state (RetrievalRequest.mk query k lang_hint (Some t2)) m
    = (m', inr r2) /\
    RetrievalResponse.results r2
    = List.filter (meets t2) (RetrievalResponse.results r1) /\
    RetrievalResponse.results r2 `sublist_of` RetrievalResponse.results r1.
Proof.
  intros Ht H.
  apply retrieve_drop_threshold in H as (r0 & H0 & Hr1).
  apply (retrieve_add_threshold G state _ _ _ t2) in H0 as (r2 & H2 & Hr2).
  exists r2. split; [exact H2|].
  assert (Heq : RetrievalResponse.results r2
                = List.filter (meets t2) (RetrievalResponse.results r1)).
  { rewrite Hr2, Hr1, filter_meets_weaker by exact Ht. reflexivity. }
  split; [exact Heq|]. rewrite Heq. apply filter_sublist.
Qed.

Lemma retrieve_threshold_monotone_witness :
  -1 # 5 <= 1 # 2 /\
  exists r2,
    retrieve (ex_globals true) (ex_state (-1 # 10) None None None true)
      (ex_request (Some (1 # 2))) ex_machine
    = (ex_machine_retrieved, inr r2) /\
    RetrievalResponse.results r2 = take 2 (ex_results (-1 # 10)).
Proof.
  assert (Ht : -1 # 5 <= 1 # 2) by discriminate.
  split; [exact Ht|].
  destruct (retrieve_threshold_monotone (ex_globals true)
              (ex_state (-1 # 10) None None None true)
              "loan eligibility criteria" 5 None (-1 # 5) (1 # 2)
              ex_machine ex_machine_retrieved (ex_response (-1 # 10)) Ht)
    as (r2 & H2 & Hr & _).
  { vm_compute. reflexivity. }
  exists r2. split; [exact H2|]. rewrite Hr. reflexivity.
Defined.

(** X7.  Whatever its outcome, [retrieve] leaves the file system as it
    found it and causes no event but language detection, embedding, index
    search and chunk lookups: it creates no file and runs no speech
    model. *)
Theorem retrieve_touches_no_file
    (G : Globals) (state : ServerState) (request : RetrievalRequest.t)
    (m : machine) :
  fs (fst (retrieve G state request m)) = fs m /\
  emits_only retrieval_event (retrieve G state request).
Proof.
  split.
  - rewrite retrieve_unfold. destruct (ready state); [|reflexivity].
    cbn [negb].
    pose proof (retrieve_front_machine G state
                  (RetrievalRequest.query request)
                  (RetrievalRequest.k request) m) as [Hfs _].
    destruct (retrieve_front G state _ _ m) as [m1 [e|[dl di]]];
      [exact Hfs|].
    destruct (build_results_trace state (RetrievalRequest.threshold request)
                (zip (fst di) (snd di)) [] m1) as (tr & _ & _ & Hb).
    destruct (build_results _ _ _ _ m1) as [m2 [e|rs]]; simpl in *;
      congruence.
  - unfold retrieve, detect_query_language, encode, search.
    repeat emits_step; try exact I.
    intros m0.
    match goal with
    | |- context [build_results state ?t ?p ?a m0] =>
        destruct (build_results_trace state t p a m0) as (tr & Htr & HF & _)
    end.
    exists tr. split; [exact Htr|].
    eapply Forall_impl; [exact HF|].
    intros ev (i & -> & _). exact I.
Qed.

(** X9.  An empty result is not an error: when every neighbour the search
    returns is a sentinel or scores below the threshold, the request is
    answered (status 200) with no results and [num_results] 0. *)
Theorem retrieve_empty_answer
    (G : Globals) (state : ServerState) (request : RetrievalRequest.t)
    (m : machine) (di : list Q * list Z) (cs : list ChunkData.t) :
  ready state = true ->
  detection_harmless G (RetrievalRequest.query request) ->
  search_rows G state request = Some di ->
  metadata_chunks state = inr cs ->
  Forall (fun e =>
            snd e = (-1)%Z \/
            ((0 <= snd e < Z.of_nat (length cs))%Z /\
             below_threshold (RetrievalRequest.threshold request) (fst e)
             = true))
    (zip (fst di) (snd di)) ->
  exists m' resp,
    retrieve G state request m = (m', inr resp) /\
    RetrievalResponse.results resp = [] /\
    RetrievalResponse.num_results resp = 0%Z.
Proof.
  intros Hr Hd Hs Hcs HF. rewrite retrieve_unfold, Hr. cbn [negb].
  destruct (retrieve_front_ok G state request m di Hd Hs) as (m1 & dl & ->).
  assert (HF' : Forall (fun e => snd e = (-1)%Z \/
                          (0 <= snd e < Z.of_nat (length cs))%Z)
                  (zip (fst di) (snd di))).
  { eapply Forall_impl; [exact HF|]. intros e [He|[He _]]; auto. }
  destruct (build_results_ok state (RetrievalRequest.threshold request) cs _
              Hcs HF' [] m1) as (m' & rs & Hb).
  rewrite Hb. exists m'. eexists. split; [reflexivity|].
  apply build_results_inr in Hb as (new & -> & HF2 & _).
  assert (Hnone : List.filter (survives (RetrievalRequest.threshold request))
                    (zip (fst di) (snd di)) = []).
  { clear -HF. induction HF as [|e rows He _ IH]; simpl; [reflexivity|].
    unfold survives at 1. destruct He as [He|[_ He]].
    - rewrite He. simpl. exact IH.
    - rewrite He, andb_false_r. exact IH. }
  rewrite Hnone in HF2. inversion HF2. subst. split; reflexivity.
Qed.

Lemma retrieve_empty_answer_witness :
  search_rows (ex_globals true) (ex_state (-1 # 10) None None None true)
    (ex_request (Some (19 # 20)))
  = Some ([9 # 10; 1 # 2; -1 # 10; -3 # 1; -3 # 1], [2; 0; 1; -1; -1]%Z) /\
  exists m' resp,
    retrieve (ex_globals true) (ex_state (-1 # 10) None None None true)
      (ex_request (Some (19 # 20))) ex_machine
    = (m', inr resp) /\
    RetrievalResponse.results resp = [] /\
    RetrievalResponse.num_results resp = 0%Z.
Proof.
  split; [reflexivity|].
  apply (retrieve_empty_answer (ex_globals true)
           (ex_state (-1 # 10) None None None true)
           (ex_request (Some (19 # 20))) ex_machine
           ([9 # 10; 1 # 2; -1 # 10; -3 # 1; -3 # 1], [2; 0; 1; -1; -1]%Z)
           (chunks ex_metadata)).
  - reflexivity.
  - right. left. exists "en". reflexivity.
  - reflexivity.
  - reflexivity.
  - simpl.
    repeat (apply List.Forall_cons;
            [first [ left; reflexivity
                   | right; split; [simpl; lia | reflexivity] ]|]).
    apply List.Forall_nil.
Defined.

(** * Further properties of [transcribe_audio] *)

Section TranscribeMore.
Variable G : Globals.
Variable state : ServerState.

Lemma fallback_answer_status (r : pyerr + WhisperResult.t) :
  match fallback_answer r with
  | inr _ => True
  | inl (HTTPException s _) => s = 500%Z
  | inl (Err _) => False
  | inl CancelledError => False
  end.
Proof.
  unfold fallback_answer. destruct r as [e|result]; [reflexivity|].
  destruct (whisper_response result); [reflexivity|exact I].
Qed.

(** An answered transcription, taken apart: the upload was persisted, and the
    response is the primary model's or, the primary giving nothing, the one
    made from Whisper's result. *)
Lemma transcribe_audio_inr audio m m' resp :
  transcribe_audio G state audio m = (m', inr resp) ->
  exists c,
    upload_read audio = inr c /\
    no_stt_installed G state = false /\
    ((exists proc mdl t,
        primary_slot state = Some (proc, mdl) /\
        primary_outcome proc mdl c = inr t /\
        resp = primary_response G t) \/
     (primary_gives_nothing state c /\
      exists wm,
        whisper_model state = Some wm /\
        fallback_answer (wm c) = inr resp)).
Proof.
  intros H.
  destruct (transcribe_audio_answered G state audio m m' resp H)
    as (Hg & Htc & c & Hc & Htw).
  rewrite (transcribe_audio_read_ok G state audio c m Hg Htc Hc Htw) in H.
  cbv zeta in H. exists c. split; [exact Hc|]. split; [exact Hg|].
  unfold primary_gives_nothing.
  destruct (primary_slot state) as [[proc mdl]|].
  - destruct (primary_outcome proc mdl c) as [e|t] eqn:Ho.
    + destruct (whisper_model state) as [wm|]; [|discriminate].
      injection H as _ H. right. split; [eauto|]. eauto.
    + injection H as _ <-. left. exists proc, mdl, t. auto.
  - destruct (whisper_model state) as [wm|]; [|discriminate].
    injection H as _ H. right. split; [exact I|]. eauto.
Qed.
End TranscribeMore.

(** X10.  The outcomes of [transcribe_audio]: whatever the upload, the
    file system, the models and the detector do, the call ends in a
    response, in an [HTTPException] of status 500 or 501 or, when the read
    of the upload is cancelled, in the [CancelledError] itself, which
    [except Exception] does not catch; no other exception leaves the
    call.  A read that is reached and cancelled does end so, with the
    temporary file left behind. *)
Theorem transcribe_audio_statuses
    (G : Globals) (state : ServerState) (audio : UploadFile) (m : machine) :
  match snd (transcribe_audio G state audio m) with
  | inr _ => True
  | inl (HTTPException s _) => s = 500%Z \/ s = 501%Z
  | inl (Err _) => False
  | inl CancelledError =>
      no_stt_installed G state = false /\
      temp_created G audio /\
      upload_read audio = inl ReadCancelled
  end /\
  (no_stt_installed G state = false ->
   temp_created G audio ->
   upload_read audio = inl ReadCancelled ->
   snd (transcribe_audio G state audio m) = inl CancelledError /\
   fs (fst (transcribe_audio G state audio m)) !! upload_path G audio
   = Some []).
Proof.
  split.
  - destruct (no_stt_installed G state) eqn:Hg.
    { rewrite (transcribe_audio_not_installed G state audio m Hg).
      simpl. auto. }
    destruct (upload_cases G audio)
      as [(e & He)|(Ht & [(e & He)|[He|(c & Hc & [(e & w & Hw)|Hw])]])].
    + rewrite (transcribe_audio_create_error G state audio e m Hg He).
      simpl. auto.
    + rewrite (transcribe_audio_read_error G state audio e m Hg Ht He).
      simpl. auto.
    + rewrite (transcribe_audio_read_cancelled G state audio m Hg Ht He).
      simpl. auto.
    + rewrite (transcribe_audio_write_error G state audio c e w m Hg Ht Hc Hw).
      simpl. auto.
    + rewrite (transcribe_audio_read_ok G state audio c m Hg Ht Hc Hw).
      cbv zeta.
      destruct (primary_slot state) as [[proc mdl]|];
        [destruct (primary_outcome proc mdl c) as [e|t]|];
        try (destruct (whisper_model state) as [wm|]); cbn [snd]; auto;
        pose proof (fallback_answer_status (wm c)) as Hs;
        destruct (fallback_answer (wm c)) as [[s d|e'|]|resp];
        auto; contradiction.
  - intros Hg Ht He.
    rewrite (transcribe_audio_read_cancelled G state audio m Hg Ht He).
    cbn [fst snd fs]. split; [reflexivity|apply lookup_insert_eq].
Qed.

Lemma transcribe_audio_statuses_witness :
  upload_read ex_upload_cancelled = inl ReadCancelled /\
  snd (transcribe_audio (ex_globals true)
         (ex_state (-1 # 10) (Some ex_whisper) None None true)
         ex_upload_cancelled ex_machine)
  = inl CancelledError /\
  fs (fst (transcribe_audio (ex_globals true)
             (ex_state (-1 # 10) (Some ex_whisper) None None true)
             ex_upload_cancelled ex_machine)) !! ex_temp
  = Some [].
Proof.
  split; [reflexivity|].
  exact (proj2 (transcribe_audio_statuses (ex_globals true)
                  (ex_state (-1 # 10) (Some ex_whisper) None None true)
                  ex_upload_cancelled ex_machine)
           eq_refl eq_refl eq_refl).
Defined.

(** X11.  In one call each speech model runs at most once, and a model
    whose slot is empty does not run at all. *)
Theorem transcribe_audio_runs_once
    (G : Globals) (state : ServerState) (audio : UploadFile) (m : machine) :
  exists tr,
    trace (fst (transcribe_audio G state audio m)) = trace m ++ tr /\
    (count_events is_primary_run tr <= 1)%nat /\
    (count_events is_whisper_run tr <= 1)%nat /\
    (primary_slot state = None -> count_events is_primary_run tr = 0%nat) /\
    (whisper_model state = None -> count_events is_whisper_run tr = 0%nat).
Proof.
  assert (Hdet : forall t,
            count_events is_primary_run (detect_events G t) = 0%nat /\
            count_events is_whisper_run (detect_events G t) = 0%nat).
  { intros t. unfold detect_events.
    destruct (LANGDETECT_AVAILABLE G); split; reflexivity. }
  destruct (no_stt_installed G state) eqn:Hg.
  { rewrite (transcribe_audio_not_installed G state audio m Hg).
    exists []. cbn [fst trace]. rewrite app_nil_r.
    repeat split; auto. }
  destruct (upload_cases G audio)
    as [(e & He)|(Ht & [(e & He)|[He|(c & Hc & [(e & w & Hwr)|Hwr])]])].
  { rewrite (transcribe_audio_create_error G state audio e m Hg He).
    exists []. cbn [fst trace]. rewrite app_nil_r.
    repeat split; auto. }
  { rewrite (transcribe_audio_read_error G state audio e m Hg Ht He).
    eexists. split; [reflexivity|]. repeat split; auto. }
  { rewrite (transcribe_audio_read_cancelled G state audio m Hg Ht He).
    eexists. split; [reflexivity|]. repeat split; auto. }
  { rewrite (transcribe_audio_write_error G state audio c e w m Hg Ht Hc Hwr).
    eexists. split; [reflexivity|]. repeat split; auto. }
  rewrite (transcribe_audio_read_ok G state audio c m Hg Ht Hc Hwr). cbv zeta.
  destruct (primary_slot state) as [[proc mdl]|];
    [destruct (primary_outcome proc mdl c) as [e|t]|];
    try (destruct (whisper_model state) as [wm|]); cbn [fst trace];
    (eexists; split; [reflexivity|]);
    unfold count_events, persisted;
    rewrite ?List.filter_app, ?length_app;
    try (destruct (Hdet t) as [Hp Hw]; unfold count_events in Hp, Hw;
         rewrite ?Hp, ?Hw);
    simpl; repeat split; intros; try discriminate; lia.
Qed.

(** X12.  Every text of an answered transcription is stripped: the
    transcript and the text of each segment carry no whitespace at either
    end. *)
Theorem transcribe_audio_texts_trimmed
    (G : Globals) (state : ServerState) (audio : UploadFile)
    (m m' : machine) (resp : TranscriptionResponse.t) :
  transcribe_audio G state audio m = (m', inr resp) ->
  trimmed (TranscriptionResponse.text resp) /\
  Forall (fun d => trimmed (TranscriptionResponse.seg_text d))
    (TranscriptionResponse.segments resp).
Proof.
  intros H.
  apply transcribe_audio_inr in H
    as (c & _ & _ & [(proc & mdl & t & _ & _ & ->)|(_ & wm & _ & Ha)]).
  - split; [apply strip_trimmed|]. simpl. constructor.
  - apply fallback_answer_inr in Ha
      as (result & _ & _ & Hsegs & tx & _ & ->).
    split; [apply strip_trimmed|].
    induction Hsegs as [|s d segs ds (_ & _ & tx' & _ & Hd) _ IH];
      constructor; [rewrite Hd; apply strip_trimmed|exact IH].
Qed.

Lemma transcribe_audio_texts_trimmed_witness :
  transcribe_audio (ex_globals true)
    (ex_state (-1 # 10) (Some ex_whisper) (Some ex_processor)
       (Some ex_indic_failing) true)
    ex_upload ex_machine
  = (ex_machine_transcribed, inr ex_transcription) /\
  trimmed (TranscriptionResponse.text ex_transcription).
Proof.
  assert (H : transcribe_audio (ex_globals true)
                (ex_state (-1 # 10) (Some ex_whisper) (Some ex_processor)
                   (Some ex_indic_failing) true)
                ex_upload ex_machine
              = (ex_machine_transcribed, inr ex_transcription)).
  { vm_compute. reflexivity. }
  split; [exact H|].
  exact (proj1 (transcribe_audio_texts_trimmed _ _ _ _ _ _ H)).
Defined.

(** X13.  Keys Whisper leaves out of its result have defaults.  In a
    transcription answered from Whisper's result, the language is the one
    Whisper names and "unknown" when it names none, whatever the segments;
    and without segments (the key missing, or an empty list) the confidence
    is 0.8 and the response has no segments. *)
Theorem whisper_result_defaults
    (G : Globals) (state : ServerState) (audio : UploadFile) (c : bytes)
    (m m' : machine) (resp : TranscriptionResponse.t) (wm : WhisperModel)
    (result : WhisperResult.t) :
  transcribe_audio G state audio m = (m', inr resp) ->
  upload_read audio = inr c ->
  primary_gives_nothing state c ->
  whisper_model state = Some wm ->
  wm c = inr result ->
  TranscriptionResponse.language resp
  = match WhisperResult.result_language result with
    | Some l => l
    | None => "unknown"
    end /\
  (result_get_segments result = [] ->
   TranscriptionResponse.confidence resp = Some (8 # 10) /\
   TranscriptionResponse.segments resp = []).
Proof.
  intros H Hc Hn Hw Hr.
  destruct (transcribe_audio_answered G state audio m m' resp H)
    as (Hg & Htc & c' & Hc' & Htw).
  assert (c' = c) by congruence. subst c'.
  rewrite (transcribe_audio_read_ok G state audio c m Hg Htc Hc Htw) in H.
  cbv zeta in H.
  assert (Ha : fallback_answer (wm c) = inr resp).
  { unfold primary_gives_nothing in Hn.
    destruct (primary_slot state) as [[proc mdl]|].
    - destruct Hn as (e & He). rewrite He, Hw in H. injection H as _ H.
      exact H.
    - rewrite Hw in H. injection H as _ H. exact H. }
  unfold fallback_answer, whisper_response, subscript in Ha. rewrite Hr in Ha.
  destruct (WhisperResult.result_text result) as [tx|]; [|discriminate].
  destruct (segment_dicts (result_get_segments result)) as [e|ds] eqn:Hds;
    [discriminate|].
  injection Ha as <-. cbn. split; [reflexivity|].
  intros Hsegs. rewrite Hsegs in Hds. simpl in Hds. injection Hds as <-.
  rewrite Hsegs. split; reflexivity.
Qed.

Lemma whisper_result_defaults_witness :
  primary_gives_nothing (ex_state (-1 # 10) (Some ex_whisper_bare) None None true)
    ex_audio /\
  transcribe_audio (ex_globals true)
    (ex_state (-1 # 10) (Some ex_whisper_bare) None None true)
    ex_upload ex_machine
  = (ex_machine_bare,
     inr (TranscriptionResponse.mk "ok" "unknown" (Some (8 # 10)) [])) /\
  TranscriptionResponse.language
    (TranscriptionResponse.mk "ok" "unknown" (Some (8 # 10)) [])
  = "unknown".
Proof.
  assert (H : transcribe_audio (ex_globals true)
                (ex_state (-1 # 10) (Some ex_whisper_bare) None None true)
                ex_upload ex_machine
              = (ex_machine_bare,
                 inr (TranscriptionResponse.mk "ok" "unknown" (Some (8 # 10))
                        []))).
  { vm_compute. reflexivity. }
  split; [exact I|]. split; [exact H|].
  exact (proj1 (whisper_result_defaults (ex_globals true)
                  (ex_state (-1 # 10) (Some ex_whisper_bare) None None true)
                  ex_upload ex_audio ex_machine ex_machine_bare
                  (TranscriptionResponse.mk "ok" "unknown" (Some (8 # 10)) [])
                  ex_whisper_bare
                  (WhisperResult.mk (Some " ok ") None None)
                  H eq_refl I eq_refl eq_refl)).
Defined.



Lemma sum_in_unit (xs : list Q) :
  Forall in_unit xs ->
  0 <= fold_right Qplus 0 xs /\
  fold_right Qplus 0 xs <= inject_Z (Z.of_nat (length xs)).
Proof.
  induction 1 as [|x xs [Hx0 Hx1] _ [IH0 IH1]]; simpl fold_right.
  - split; apply Qle_refl.
  - split.
    + apply (Qle_trans _ (0 + 0)); [unfold Qle; simpl; lia|].
      apply Qplus_le_compat; assumption.
    + change (length (x :: xs)) with (S (length xs)).
      rewrite Nat2Z.inj_succ, <- Z.add_1_l, inject_Z_plus.
      apply Qplus_le_compat; assumption.
Qed.

(** One minus the mean of probabilities is a probability. *)
Lemma avg_confidence_in_unit (segs : list WhisperResult.seg) :
  Forall (fun s => in_unit (seg_no_speech_prob s)) segs ->
  in_unit (avg_confidence segs).
Proof.
  intros HF. destruct segs as [|s rest].
  { split; discriminate. }
  assert (Hne : s :: rest <> []) by discriminate.
  unfold in_unit. rewrite (avg_confidence_mean (s :: rest) Hne).
  assert (HF' : Forall in_unit (map seg_no_speech_prob (s :: rest))).
  { clear -HF. induction HF; simpl; constructor; auto. }
  destruct (sum_in_unit _ HF') as [H0 H1].
  set (xs := map seg_no_speech_prob (s :: rest)) in *.
  assert (Hpos : 0 < inject_Z (Z.of_nat (length xs))).
  { unfold xs. rewrite length_map. simpl length.
    rewrite Nat2Z.inj_succ. unfold Qlt, inject_Z. simpl. lia. }
  assert (Hm0 : 0 <= mean xs).
  { unfold mean. apply Qle_shift_div_l; [exact Hpos|].
    rewrite Qmult_0_l. exact H0. }
  assert (Hm1 : mean xs <= 1).
  { unfold mean. apply Qle_shift_div_r; [exact Hpos|].
    rewrite Qmult_1_l. exact H1. }
  split.
  - apply (proj1 (Qle_minus_iff (mean xs) 1)). exact Hm1.
  - apply (Qle_trans _ (1 + - 0)); [|unfold Qle; simpl; lia].
    unfold Qminus. apply Qplus_le_compat; [apply Qle_refl|].
    apply Qopp_le_compat. exact Hm0.
Qed.

(** X15.  The confidence of an answered transcription is a probability
    whenever the [no_speech_prob] values Whisper reports are. *)
Theorem transcribe_audio_confidence_unit
    (G : Globals) (state : ServerState) (audio : UploadFile)
    (m m' : machine) (resp : TranscriptionResponse.t) :
  transcribe_audio G state audio m = (m', inr resp) ->
  (forall c wm result,
     upload_read audio = inr c ->
     whisper_model state = Some wm ->
     wm c = inr result ->
     Forall (fun s => in_unit (seg_no_speech_prob s))
       (result_get_segments result)) ->
  exists conf,
    TranscriptionResponse.confidence resp = Some conf /\ in_unit conf.
Proof.
  intros H Hprob.
  apply transcribe_audio_inr in H
    as (c & Hc & _ & [(proc & mdl & t & _ & _ & ->)|(_ & wm & Hw & Ha)]).
  - exists (85 # 100). split; [reflexivity|]. split; discriminate.
  - apply fallback_answer_inr in Ha as (result & Hr & Hconf & _).
    exists (avg_confidence (result_get_segments result)).
    split; [exact Hconf|].
    apply avg_confidence_in_unit, (Hprob c wm result Hc Hw Hr).
Qed.

Lemma transcribe_audio_confidence_unit_witness :
  transcribe_audio (ex_globals true)
    (ex_state (-1 # 10) (Some ex_whisper) (Some ex_processor)
       (Some ex_indic_failing) true)
    ex_upload ex_machine
  = (ex_machine_transcribed, inr ex_transcription) /\
  exists conf,
    TranscriptionResponse.confidence ex_transcription = Some conf /\
    in_unit conf.
Proof.
  assert (H : transcribe_audio (ex_globals true)
                (ex_state (-1 # 10) (Some ex_whisper) (Some ex_processor)
                   (Some ex_indic_failing) true)
                ex_upload ex_machine
              = (ex_machine_transcribed, inr ex_transcription)).
  { vm_compute. reflexivity. }
  split; [exact H|].
  apply (transcribe_audio_confidence_unit _ _ _ _ _ _ H).
  intros c wm result _ Hw Hr. cbn in Hw. injection Hw as <-.
  injection Hr as <-.
  repeat constructor; discriminate.
Defined.



(** X17.  What [/status] reports holds for [/transcribe]: when
    [whisper_available] is reported true, a transcription request whose
    upload can be read is never answered 501. *)
Theorem status_whisper_available_no_501
    (G : Globals) (state : ServerState) (settings_embedding_model : string)
    (uptime : Q) (audio : UploadFile) (c : bytes) (m : machine) :
  StatusResponse.whisper_available
    (get_status G state settings_embedding_model uptime) = true ->
  upload_read audio = inr c ->
  status_of (snd (transcribe_audio G state audio m)) <> Some 501%Z.
Proof.
  unfold get_status. cbn [StatusResponse.whisper_available].
  intros Hw Hc. apply andb_true_iff in Hw as [Hwa Hwm].
  destruct (whisper_model state) as [wm|] eqn:Hm; [|discriminate].
  assert (Hg : no_stt_installed G state = false).
  { unfold no_stt_installed. rewrite Hwa. reflexivity. }
  destruct (upload_cases G audio)
    as [(e & He)|(Ht & [(e & He)|[He|(c' & Hc' & [(e & w & Hwr)|Hwr])]])];
    try congruence.
  { rewrite (transcribe_audio_create_error G state audio e m Hg He).
    simpl. discriminate. }
  { rewrite (transcribe_audio_write_error G state audio c' e w m Hg Ht Hc'
               Hwr).
    simpl. discriminate. }
  rewrite (transcribe_audio_read_ok G state audio c' m Hg Ht Hc' Hwr), Hm.
  cbv zeta.
  pose proof (fallback_answer_status (wm c')) as Hs.
  destruct (primary_slot state) as [[proc mdl]|];
    [destruct (primary_outcome proc mdl c') as [e|t]|]; cbn [snd];
    try (simpl; discriminate);
    destruct (fallback_answer (wm c')) as [[s d|e'|]|resp]; simpl;
    try contradiction; try discriminate; subst s; discriminate.
Qed.

Lemma status_whisper_available_no_501_witness :
  StatusResponse.whisper_available
    (get_status (ex_globals true)
       (ex_state (-1 # 10) (Some ex_whisper_failing) None None true)
       "paraphrase-multilingual-mpnet-base-v2" (3 # 1))
  = true /\
  status_of (snd (transcribe_audio (ex_globals true)
                    (ex_state (-1 # 10) (Some ex_whisper_failing) None None
                       true)
                    ex_upload ex_machine))
  <> Some 501%Z.
Proof.
  split; [reflexivity|].
  exact (status_whisper_available_no_501 (ex_globals true)
           (ex_state (-1 # 10) (Some ex_whisper_failing) None None true)
           "paraphrase-multilingual-mpnet-base-v2" (3 # 1) ex_upload ex_audio
           ex_machine eq_refl eq_refl).
Defined.

(** X18.  When the upload is persisted (the temporary file created, the
    upload read and written to it) and the temporary name is fresh, a call
    of [transcribe_audio] ends with the file system exactly as it found it,
    having created one file and removed one, on every path through the
    chain. *)
Theorem transcribe_audio_restores_files
    (G : Globals) (state : ServerState) (audio : UploadFile) (c : bytes)
    (m : machine) :
  no_stt_installed G state = false ->
  temp_created G audio ->
  upload_read audio = inr c ->
  temp_written G audio c ->
  fs m !! upload_path G audio = None ->
  fs (fst (transcribe_audio G state audio m)) = fs m /\
  exists tr,
    trace (fst (transcribe_audio G state audio m)) = trace m ++ tr /\
    count_events is_temp_create tr = 1%nat /\
    count_events is_unlink tr = 1%nat.
Proof.
  intros Hg Htc Hc Htw Hfresh.
  assert (Hdet : forall t,
            count_events is_temp_create (detect_events G t) = 0%nat /\
            count_events is_unlink (detect_events G t) = 0%nat).
  { intros t. unfold detect_events.
    destruct (LANGDETECT_AVAILABLE G); split; reflexivity. }
  rewrite (transcribe_audio_read_ok G state audio c m Hg Htc Hc Htw). cbv zeta.
  destruct (primary_slot state) as [[proc mdl]|];
    [destruct (primary_outcome proc mdl c) as [e|t]|];
    try (destruct (whisper_model state) as [wm|]); cbn [fst fs trace];
    (split; [apply delete_id, Hfresh|]);
    (eexists; split; [reflexivity|]);
    unfold count_events, persisted;
    rewrite ?List.filter_app, ?length_app;
    try (destruct (Hdet t) as [Hp Hw]; unfold count_events in Hp, Hw;
         rewrite ?Hp, ?Hw);
    simpl; split; reflexivity.
Qed.

Lemma transcribe_audio_restores_files_witness :
  fs ex_machine !! upload_path (ex_globals true) ex_upload = None /\
  fs (fst (transcribe_audio (ex_globals true)
             (ex_state (-1 # 10) (Some ex_whisper) (Some ex_processor)
                (Some ex_indic_failing) true)
             ex_upload ex_machine))
  = fs ex_machine.
Proof.
  split; [reflexivity|].
  exact (proj1 (transcribe_audio_restores_files (ex_globals true)
                  (ex_state (-1 # 10) (Some ex_whisper) (Some ex_processor)
                     (Some ex_indic_failing) true)
                  ex_upload ex_audio ex_machine eq_refl eq_refl eq_refl
                  eq_refl eq_refl)).
Defined.

(** X25.  An upload that cannot be persisted is answered 500.  When the
    temporary file cannot be created (the client chooses its suffix),
    nothing is created, read or run.  When the file is created and the
    upload read but not written, the file is left behind with what was
    written: no model runs and nothing is removed. *)
Theorem transcribe_audio_persist_failure
    (G : Globals) (state : ServerState) (audio : UploadFile) (m : machine) :
  no_stt_installed G state = false ->
  (forall e,
     temp_create_error G (upload_suffix G audio) = Some e ->
     snd (transcribe_audio G state audio m)
     = inl (HTTPException 500 ("Transcription failed: " +:+ str e)) /\
     fs (fst (transcribe_audio G state audio m)) = fs m /\
     trace (fst (transcribe_audio G state audio m)) = trace m) /\
  (forall c e written,
     temp_created G audio ->
     upload_read audio = inr c ->
     temp_write_error G (upload_path G audio) c = Some (e, written) ->
     let p := upload_path G audio in
     snd (transcribe_audio G state audio m)
     = inl (HTTPException 500 ("Transcription failed: " +:+ str e)) /\
     fs (fst (transcribe_audio G state audio m)) !! p = Some written /\
     trace (fst (transcribe_audio G state audio m))
     = trace m ++ [EvTempCreate p; EvUploadRead]).
Proof.
  intros Hg. split.
  - intros e He.
    rewrite (transcribe_audio_create_error G state audio e m Hg He).
    repeat split.
  - intros c e written Ht Hc Hw p.
    rewrite (transcribe_audio_write_error G state audio c e written m Hg Ht
               Hc Hw).
    cbn [fst snd fs trace]. split; [reflexivity|].
    split; [apply lookup_insert_eq|reflexivity].
Qed.

Lemma transcribe_audio_persist_failure_witness :
  temp_create_error ex_globals_long_name
    (upload_suffix ex_globals_long_name ex_upload_long_name)
  = Some (OSError "[Errno 36] File name too long") /\
  snd (transcribe_audio ex_globals_long_name
         (ex_state (-1 # 10) (Some ex_whisper) (Some ex_processor)
            (Some ex_indic) true)
         ex_upload_long_name ex_machine)
  = inl (HTTPException 500
           "Transcription failed: [Errno 36] File name too long") /\
  fs (fst (transcribe_audio ex_globals_long_name
             (ex_state (-1 # 10) (Some ex_whisper) (Some ex_processor)
                (Some ex_indic) true)
             ex_upload_long_name ex_machine))
  = fs ex_machine.
Proof.
  split; [vm_compute; reflexivity|].
  destruct (proj1 (transcribe_audio_persist_failure ex_globals_long_name
                     (ex_state (-1 # 10) (Some ex_whisper) (Some ex_processor)
                        (Some ex_indic) true)
                     ex_upload_long_name ex_machine eq_refl)
              (OSError "[Errno 36] File name too long") eq_refl)
    as (Hs & Hfs & _).
  split; [exact Hs|exact Hfs].
Defined.

(** * Further properties of startup *)

Section StartupMore.
Variable G : Globals.
Variable L : Loads.

(** The state a startup whose fatal loads answer leaves. *)
Lemma startup_event_loaded st enc ix md :
  load_SentenceTransformer L = inr enc ->
  load_faiss_index L = inr ix ->
  load_pickle L = inr md ->
  snd (startup_event G L st) = None /\
  ready (fst (startup_event G L st)) = true /\
  model (fst (startup_event G L st)) = Some enc /\
  index (fst (startup_event G L st)) = Some ix /\
  metadata (fst (startup_event G L st)) = Some md.
Proof.
  intros He Hi Hm.
  unfold startup_event, load_embedding_model, load_index_and_metadata,
    load_whisper_model, load_indicseamless_model.
  rewrite He, Hi, Hm. cbn.
  destruct (WHISPER_AVAILABLE G), (load_whisper L), (INDICSEAMLESS_AVAILABLE L),
    (use_indicseamless L), (load_AutoProcessor L), (load_AutoModel L);
    cbn; auto.
Qed.

(** The speech slots a startup from the initial state leaves. *)
Lemma startup_event_whisper_slot enc ix md :
  load_SentenceTransformer L = inr enc ->
  load_faiss_index L = inr ix ->
  load_pickle L = inr md ->
  whisper_model (fst (startup_event G L ServerState_init))
  = if WHISPER_AVAILABLE G then
      match load_whisper L with inr wm => Some wm | inl _ => None end
    else None.
Proof.
  intros He Hi Hm.
  unfold startup_event, load_embedding_model, load_index_and_metadata,
    load_whisper_model, load_indicseamless_model.
  rewrite He, Hi, Hm. cbn.
  destruct (WHISPER_AVAILABLE G), (load_whisper L), (INDICSEAMLESS_AVAILABLE L),
    (use_indicseamless L), (load_AutoProcessor L), (load_AutoModel L);
    reflexivity.
Qed.

Lemma startup_event_primary_off st' r :
  startup_event G L ServerState_init = (st', r) ->
  INDICSEAMLESS_AVAILABLE L = false \/ use_indicseamless L = false ->
  primary_slot st' = None.
Proof.
  unfold startup_event, load_embedding_model, load_index_and_metadata,
    load_whisper_model, load_indicseamless_model, primary_slot.
  intros H Hoff.
  destruct (load_SentenceTransformer L); [injection H as <- _; reflexivity|].
  destruct (load_faiss_index L); [injection H as <- _; reflexivity|].
  destruct (load_pickle L); [injection H as <- _; reflexivity|].
  injection H as <- _.
  destruct Hoff as [-> | Hoff]; cbn.
  - destruct (WHISPER_AVAILABLE G), (load_whisper L); reflexivity.
  - rewrite Hoff. destruct (INDICSEAMLESS_AVAILABLE L); cbn;
      destruct (WHISPER_AVAILABLE G), (load_whisper L); reflexivity.
Qed.
End StartupMore.

(** X19.  Only the embedding model, the index and the metadata are fatal:
    when these three loads answer, startup succeeds and sets the readiness
    flag, whatever the speech model loads do; a startup that fails re-raises
    the exception of one of the three, leaves the flag as it was and has
    not attempted the speech models. *)
Theorem startup_event_outcome
    (G : Globals) (L : Loads) (st : ServerState) :
  (fatal_loads_ok L ->
   snd (startup_event G L st) = None /\
   ready (fst (startup_event G L st)) = true /\
   is_Some (model (fst (startup_event G L st))) /\
   is_Some (index (fst (startup_event G L st))) /\
   is_Some (metadata (fst (startup_event G L st)))) /\
  (forall st' e,
     startup_event G L st = (st', Some e) ->
     (load_SentenceTransformer L = inl e \/
      load_faiss_index L = inl e \/
      load_pickle L = inl e) /\
     ready st' = ready st /\
     whisper_model st' = whisper_model st /\
     indicseamless_model st' = indicseamless_model st /\
     indicseamless_processor st' = indicseamless_processor st).
Proof.
  split.
  - intros ((enc & He) & (ix & Hi) & (md & Hm)).
    destruct (startup_event_loaded G L st enc ix md He Hi Hm)
      as (H1 & H2 & H3 & H4 & H5).
    rewrite H3, H4, H5. eauto.
  - intros st' e.
    unfold startup_event, load_embedding_model, load_index_and_metadata.
    destruct (load_SentenceTransformer L) as [e1|enc];
      [intros [= <- <-]; auto|].
    destruct (load_faiss_index L) as [e2|ix]; [intros [= <- <-]; auto 6|].
    destruct (load_pickle L) as [e3|md]; [intros [= <- <-]; auto 6|].
    discriminate.
Qed.

Lemma startup_event_outcome_witness :
  fatal_loads_ok ex_loads /\
  snd (startup_event (ex_globals true) ex_loads ServerState_init) = None /\
  ready (fst (startup_event (ex_globals true) ex_loads ServerState_init))
  = true.
Proof.
  assert (H : fatal_loads_ok ex_loads).
  { repeat split; eexists; reflexivity. }
  split; [exact H|].
  destruct (proj1 (startup_event_outcome (ex_globals true) ex_loads
                     ServerState_init) H) as (H1 & H2 & _).
  split; [exact H1|exact H2].
Defined.

(** X20.  After a startup from the initial state, a Whisper model is held
    only if Whisper can be imported, and an IndicSeamless model is held
    only together with its processor; so the early exit of
    [transcribe_audio] ("Install Whisper or IndicSeamless") is taken only
    when neither speech slot is loaded. *)
Theorem startup_event_speech_slots
    (G : Globals) (L : Loads) (st' : ServerState) (r : option pyerr) :
  startup_event G L ServerState_init = (st', r) ->
  (is_Some (whisper_model st') -> WHISPER_AVAILABLE G = true) /\
  (is_Some (indicseamless_model st') ->
   is_Some (indicseamless_processor st')) /\
  (no_stt_installed G st' = true ->
   primary_slot st' = None /\ whisper_model st' = None).
Proof.
  intros H.
  destruct (startup_event_slots G L st' r H) as (Hw & Hp & Hn).
  split; [|split; assumption].
  intros [wm Hwm]. destruct (WHISPER_AVAILABLE G); [reflexivity|].
  rewrite (Hw eq_refl) in Hwm. discriminate.
Qed.

Lemma startup_event_speech_slots_witness :
  startup_event (ex_globals true) ex_loads_all ServerState_init
  = (ex_started_all, None) /\
  is_Some (indicseamless_processor ex_started_all).
Proof.
  split; [reflexivity|].
  refine (proj1 (proj2 (startup_event_speech_slots (ex_globals true)
                          ex_loads_all ex_started_all None eq_refl)) _).
  eexists. reflexivity.
Defined.

(** X21.  Startup makes [retrieve] serve: after a startup whose fatal
    loads answered, a retrieval is answered (status 200) whenever detection
    is harmless, the loaded embedding model and index answer, and every
    neighbour that is no sentinel is a position of the loaded chunk
    array. *)
Theorem startup_then_retrieve
    (G : Globals) (L : Loads) (st : ServerState)
    (request : RetrievalRequest.t) (m : machine)
    (enc : Encoder) (ix : Index) (md : Metadata) (v : vec)
    (di : list Q * list Z) :
  load_SentenceTransformer L = inr enc ->
  load_faiss_index L = inr ix ->
  load_pickle L = inr md ->
  detection_harmless G (RetrievalRequest.query request) ->
  enc (RetrievalRequest.query request) = inr v ->
  ix (normalize_L2 G v) (RetrievalRequest.k request) = inr di ->
  Forall (fun i => i = (-1)%Z \/ (0 <= i < Z.of_nat (length (chunks md)))%Z)
    (snd di) ->
  exists m' resp,
    retrieve G (fst (startup_event G L st)) request m = (m', inr resp).
Proof.
  intros He Hi Hm Hd Hv Hdi HF.
  destruct (startup_event_loaded G L st enc ix md He Hi Hm)
    as (_ & Hr & Hmodel & Hindex & Hmeta).
  apply (retrieve_ok G _ request m di (chunks md)); try assumption.
  - unfold search_rows. rewrite Hmodel, Hindex, Hv, Hdi. reflexivity.
  - unfold metadata_chunks. rewrite Hmeta. reflexivity.
Qed.

Lemma startup_then_retrieve_witness :
  load_pickle ex_loads = inr ex_metadata /\
  exists m' resp,
    retrieve (ex_globals true)
      (fst (startup_event (ex_globals true) ex_loads ServerState_init))
      (ex_request None) ex_machine
    = (m', inr resp).
Proof.
  split; [reflexivity|].
  refine (startup_then_retrieve (ex_globals true) ex_loads ServerState_init
            (ex_request None) ex_machine ex_encoder (ex_index (-1 # 10))
            ex_metadata [1 # 1; 0 # 1]
            ([9 # 10; 1 # 2; -1 # 10; -3 # 1; -3 # 1], [2; 0; 1; -1; -1]%Z)
            eq_refl eq_refl eq_refl _ eq_refl eq_refl _).
  - right. left. exists "en". reflexivity.
  - simpl.
    repeat (apply List.Forall_cons;
            [first [left; reflexivity | right; simpl; lia]|]).
    apply List.Forall_nil.
Defined.

(** X22.  After a startup whose fatal loads answered, [/status] reports
    "ready", the index as loaded, the number of chunks of the loaded
    metadata, and Whisper as available exactly when it can be imported and
    its model loaded. *)
Theorem startup_then_status
    (G : Globals) (L : Loads) (enc : Encoder) (ix : Index) (md : Metadata)
    (settings_embedding_model : string) (uptime : Q) :
  load_SentenceTransformer L = inr enc ->
  load_faiss_index L = inr ix ->
  load_pickle L = inr md ->
  let s := get_status G (fst (startup_event G L ServerState_init))
             settings_embedding_model uptime in
  StatusResponse.status s = "ready" /\
  StatusResponse.index_loaded s = true /\
  StatusResponse.num_chunks s = Z.of_nat (length (chunks md)) /\
  (StatusResponse.whisper_available s = true <->
   WHISPER_AVAILABLE G = true /\ exists wm, load_whisper L = inr wm).
Proof.
  intros He Hi Hm s.
  destruct (startup_event_loaded G L ServerState_init enc ix md He Hi Hm)
    as (_ & Hr & _ & Hindex & Hmeta).
  pose proof (startup_event_whisper_slot G L enc ix md He Hi Hm) as Hw.
  unfold s, get_status.
  cbn [StatusResponse.status StatusResponse.index_loaded
       StatusResponse.num_chunks StatusResponse.whisper_available].
  rewrite Hr, Hindex, Hmeta, Hw.
  split; [reflexivity|]. split; [reflexivity|]. split; [reflexivity|].
  destruct (WHISPER_AVAILABLE G); simpl.
  - destruct (load_whisper L) as [e|wm]; simpl; split.
    + discriminate.
    + intros (_ & wm & [=]).
    + eauto.
    + reflexivity.
  - split; [discriminate|]. intros ([=] & _).
Qed.

Lemma startup_then_status_witness :
  load_pickle ex_loads = inr ex_metadata /\
  StatusResponse.num_chunks
    (get_status (ex_globals true)
       (fst (startup_event (ex_globals true) ex_loads ServerState_init))
       "paraphrase-multilingual-mpnet-base-v2" (3 # 1))
  = 3%Z.
Proof.
  split; [reflexivity|].
  exact (proj1 (proj2 (proj2 (startup_then_status (ex_globals true) ex_loads
                  ex_encoder (ex_index (-1 # 10)) ex_metadata
                  "paraphrase-multilingual-mpnet-base-v2" (3 # 1)
                  eq_refl eq_refl eq_refl)))).
Defined.

(** X23.  Switching IndicSeamless off switches the primary model off: when
    its dependencies cannot be imported or [use_indicseamless] is false,
    no call of [transcribe_audio] after startup runs the primary model. *)
Theorem indicseamless_off_never_runs
    (G : Globals) (L : Loads) (audio : UploadFile) (m : machine) :
  INDICSEAMLESS_AVAILABLE L = false \/ use_indicseamless L = false ->
  exists tr,
    trace (fst (transcribe_audio G
                  (fst (startup_event G L ServerState_init)) audio m))
    = trace m ++ tr /\
    count_events is_primary_run tr = 0%nat.
Proof.
  intros Hoff.
  assert (Hs : primary_slot (fst (startup_event G L ServerState_init)) = None).
  { apply (startup_event_primary_off G L _
             (snd (startup_event G L ServerState_init)));
      [apply surjective_pairing|exact Hoff]. }
  set (st := fst (startup_event G L ServerState_init)) in *.
  destruct (no_stt_installed G st) eqn:Hg.
  { rewrite (transcribe_audio_not_installed G st audio m Hg).
    exists []. cbn [fst trace]. rewrite app_nil_r. auto. }
  destruct (upload_cases G audio)
    as [(e & He)|(Ht & [(e & He)|[He|(c & Hc & [(e & w & Hwr)|Hwr])]])].
  { rewrite (transcribe_audio_create_error G st audio e m Hg He).
    exists []. cbn [fst trace]. rewrite app_nil_r. auto. }
  { rewrite (transcribe_audio_read_error G st audio e m Hg Ht He).
    eexists. split; reflexivity. }
  { rewrite (transcribe_audio_read_cancelled G st audio m Hg Ht He).
    eexists. split; reflexivity. }
  { rewrite (transcribe_audio_write_error G st audio c e w m Hg Ht Hc Hwr).
    eexists. split; reflexivity. }
  rewrite (transcribe_audio_read_ok G st audio c m Hg Ht Hc Hwr), Hs. cbv zeta.
  destruct (whisper_model st) as [wm|]; cbn [fst trace];
    eexists; split; reflexivity.
Qed.

Lemma indicseamless_off_never_runs_witness :
  use_indicseamless ex_loads = false /\
  exists tr,
    trace (fst (transcribe_audio (ex_globals true)
                  (fst (startup_event (ex_globals true) ex_loads
                          ServerState_init))
                  ex_upload ex_machine))
    = trace ex_machine ++ tr /\
    count_events is_primary_run tr = 0%nat.
Proof.
  split; [reflexivity|].
  apply indicseamless_off_never_runs. right. reflexivity.
Defined.

(** * The status endpoints *)

(** X24.  The three status views never disagree: [/health] reports ready
    exactly when [/status] says "ready" and [/] says "running", and exactly
    then [retrieve] is not refused with 503. *)
Theorem status_views_agree
    (G : Globals) (state : ServerState) (settings_embedding_model : string)
    (uptime : Q) (request : RetrievalRequest.t) (m : machine) :
  (HealthResponse.ready (health state) = true <->
   StatusResponse.status (get_status G state settings_embedding_model uptime)
   = "ready") /\
  (HealthResponse.ready (health state) = true <->
   RootResponse.status (root state) = "running") /\
  (HealthResponse.ready (health state) = false <->
   retrieve G state request m
   = (m, inl (HTTPException 503 "Service not ready"))).
Proof.
  unfold health, get_status, root.
  cbn [HealthResponse.ready StatusResponse.status RootResponse.status].
  destruct (ready state) eqn:Hr.
  - split; [split; reflexivity|]. split; [split; reflexivity|].
    split; [discriminate|]. intros H.
    pose proof (f_equal (fun r => status_of (snd r)) H) as Hs.
    cbn [snd status_of] in Hs. exfalso.
    pose proof (retrieve_unfold G state request m) as Hu.
    rewrite Hr in Hu. cbn [negb] in Hu. rewrite Hu in H.
    destruct (retrieve_front G state _ _ m) as [m1 [e|[dl di]]] eqn:Hf.
    + injection H as -> ->. revert Hf.
      unfold retrieve_front, detect_query_language, encode, search. run_goal.
      front_cases G state; discriminate.
    + destruct (build_results _ _ _ _ m1) as [m2 [e|rs]] eqn:Hb;
        [|discriminate].
      injection H as -> ->. revert Hb. generalize (@nil DocumentResult.t).
      generalize m1. clear.
      induction (zip (fst di) (snd di)) as [|[d i] rest IH]; intros m1 acc;
        simpl.
      * discriminate.
      * destruct (i =? -1)%Z; [apply IH|]. run_goal.
        destruct (metadata_chunks state); run_goal; [discriminate|].
        destruct (py_getitem _ _); run_goal; [discriminate|].
        destruct (below_threshold _ _); apply IH.
  - split; [split; discriminate|]. split; [split; discriminate|].
    split; [|reflexivity]. intros _. unfold retrieve. rewrite Hr. reflexivity.
Qed.
